(** * phantomasync: HTTP capture-and-forward producers

    A shallow embedding of the three programs of the repository: the Redis
    producer, the Kafka producer and the console printer.  Go strings are
    byte sequences and are modelled as [string] (a sequence of 8-bit
    [ascii]); a Go [error] is kept as the text its [Error()] method gives;
    a nil map or slice is [None]. *)

From Stdlib Require Import String Ascii NArith ZArith List Bool Lia.
From stdpp Require Import gmap strings list fin_maps sorting.

Local Open Scope N_scope.

(** ** Go strings *)

Definition byte (c : ascii) : N := N_of_ascii c.
Definition chr (n : N) : ascii := ascii_of_N n.

Fixpoint sdrop (n : nat) (s : string) : string :=
  match n, s with
  | S k, String _ t => sdrop k t
  | _, _ => s
  end.

Fixpoint stake (n : nat) (s : string) : string :=
  match n, s with
  | S k, String c t => String c (stake k t)
  | _, _ => EmptyString
  end.

Fixpoint sconcat (l : list string) : string :=
  match l with
  | [] => EmptyString
  | x :: r => x +:+ sconcat r
  end.

(** ** unicode/utf8 *)

Module utf8.

Definition RuneError : N := 0xFFFD.
Definition RuneSelf : N := 0x80.

(** What the table [first] says of a lead byte: a one-byte rune, an
    invalid byte, or the size of the sequence with the range accepted for
    its second byte. *)
Inductive lead := Single | Invalid | Multi (sz : nat) (lo hi : N).

Definition first (b : N) : lead :=
  if b <? 0x80 then Single
  else if b <? 0xC2 then Invalid
  else if b <? 0xE0 then Multi 2 0x80 0xBF
  else if b =? 0xE0 then Multi 3 0xA0 0xBF
  else if b =? 0xED then Multi 3 0x80 0x9F
  else if b <? 0xF0 then Multi 3 0x80 0xBF
  else if b =? 0xF0 then Multi 4 0x90 0xBF
  else if b <? 0xF4 then Multi 4 0x80 0xBF
  else if b =? 0xF4 then Multi 4 0x80 0x8F
  else Invalid.

Definition cont (b : N) : bool := (0x80 <=? b) && (b <=? 0xBF).

(** [DecodeRuneInString s]: the rune at the head of [s] and its width in
    bytes; [(RuneError, 1)] for an encoding that is not valid. *)
Definition DecodeRuneInString (s : string) : N * nat :=
  match s with
  | EmptyString => (RuneError, 0%nat)
  | String c0 t0 =>
    let s0 := byte c0 in
    match first s0 with
    | Single => (s0, 1%nat)
    | Invalid => (RuneError, 1%nat)
    | Multi sz lo hi =>
      match t0 with
      | EmptyString => (RuneError, 1%nat)
      | String c1 t1 =>
        let s1 := byte c1 in
        if (s1 <? lo) || (hi <? s1) then (RuneError, 1%nat)
        else if (sz <=? 2)%nat then
          (N.lor (N.shiftl (N.land s0 0x1F) 6) (N.land s1 0x3F), 2%nat)
        else
          match t1 with
          | EmptyString => (RuneError, 1%nat)
          | String c2 t2 =>
            let s2 := byte c2 in
            if negb (cont s2) then (RuneError, 1%nat)
            else if (sz <=? 3)%nat then
              (N.lor (N.lor (N.shiftl (N.land s0 0x0F) 12)
                            (N.shiftl (N.land s1 0x3F) 6))
                     (N.land s2 0x3F), 3%nat)
            else
              match t2 with
              | EmptyString => (RuneError, 1%nat)
              | String c3 _ =>
                let s3 := byte c3 in
                if negb (cont s3) then (RuneError, 1%nat)
                else
                  (N.lor (N.lor (N.lor (N.shiftl (N.land s0 0x07) 18)
                                       (N.shiftl (N.land s1 0x3F) 12))
                                (N.shiftl (N.land s2 0x3F) 6))
                         (N.land s3 0x3F), 4%nat)
              end
          end
      end
    end
  end.

(** [AppendRune]/[EncodeRune]: the UTF-8 encoding of a code point;
    surrogates and values past U+10FFFF are written as U+FFFD. *)
Definition EncodeRune (r : N) : string :=
  if r <=? 0x7F then String (chr r) EmptyString
  else if r <=? 0x7FF then
    String (chr (N.lor 0xC0 (N.shiftr r 6)))
      (String (chr (N.lor 0x80 (N.land r 0x3F))) EmptyString)
  else if (0x10FFFF <? r) || ((0xD800 <=? r) && (r <=? 0xDFFF)) then
    String (chr 0xEF) (String (chr 0xBF) (String (chr 0xBD) EmptyString))
  else if r <=? 0xFFFF then
    String (chr (N.lor 0xE0 (N.shiftr r 12)))
      (String (chr (N.lor 0x80 (N.land (N.shiftr r 6) 0x3F)))
        (String (chr (N.lor 0x80 (N.land r 0x3F))) EmptyString))
  else
    String (chr (N.lor 0xF0 (N.shiftr r 18)))
      (String (chr (N.lor 0x80 (N.land (N.shiftr r 12) 0x3F)))
        (String (chr (N.lor 0x80 (N.land (N.shiftr r 6) 0x3F)))
          (String (chr (N.lor 0x80 (N.land r 0x3F))) EmptyString))).

(** The loop [for i := 0; i < len(s); i += size] over the runes of [s]:
    [skip] counts the bytes of the rune decoded last that are still to be
    passed over. *)
Fixpoint runes_from (skip : nat) (s : string) : list (N * string) :=
  match s with
  | EmptyString => []
  | String _ t =>
    match skip with
    | S k => runes_from k t
    | O =>
      let '(c, size) := DecodeRuneInString s in
      (c, stake size s) :: runes_from (size - 1) t
    end
  end.

Definition runes (s : string) : list (N * string) := runes_from 0 s.

(** A decoded rune stands for an invalid byte. *)
Definition is_error (r : N * string) : bool :=
  (fst r =? RuneError) && (String.length (snd r) =? 1)%nat.

Definition ValidString (s : string) : bool :=
  forallb (fun r => negb (is_error r)) (runes s).

End utf8.

(** ** Values shared by the programs *)

(** A Go [error], kept as the text of [Error()]. *)
Record error := errorString { Error : string }.

(** [[]string]: [None] is the nil slice. *)
Abbreviation Values := (option (list string)).
(** [http.Header], [map[string][]string]: [None] is the nil map. *)
Abbreviation Header := (option (gmap string (option (list string)))).

(** The struct both producers declare. *)
Record RequestPayload := mkPayload {
  Method : string;
  URI : string;
  Headers : Header;
  Body : string
}.

(** [RequestPayload{}] *)
Definition zeroPayload : RequestPayload :=
  {| Method := ""; URI := ""; Headers := None; Body := "" |}.

(** ** encoding/json, encoder *)

Module json.

Definition quote : ascii := chr 34.
Definition backslash : ascii := chr 92.

Definition hex (n : N) : ascii := chr (if n <? 10 then 48 + n else 87 + n).

(** [htmlSafeSet]: the ASCII bytes written as they are when HTML escaping
    is on, which is the default of [Marshal]. *)
Definition htmlSafeSet (b : N) : bool :=
  (0x20 <=? b) && (b <? 0x80) &&
  negb ((b =? 34) || (b =? 38) || (b =? 60) || (b =? 62) || (b =? 92)).

Definition esc (c : ascii) : string := String backslash (String c "").

(** One turn of the loop of [appendString], for the rune [c] held in the
    bytes [bs]. *)
Definition appendRune (r : N * string) : string :=
  let '(c, bs) := r in
  match bs with
  | EmptyString => ""
  | String c0 _ =>
    let b := byte c0 in
    if b <? utf8.RuneSelf then
      if htmlSafeSet b then bs
      else if (b =? 92) || (b =? 34) then esc c0
      else if b =? 8 then esc "b"
      else if b =? 12 then esc "f"
      else if b =? 10 then esc "n"
      else if b =? 13 then esc "r"
      else if b =? 9 then esc "t"
      else esc "u" +:+ "00" +:+
           String (hex (N.shiftr b 4)) (String (hex (N.land b 0xF)) "")
    else if (c =? utf8.RuneError) && (String.length bs =? 1)%nat then
      esc "u" +:+ "fffd"
    else if (c =? 0x2028) || (c =? 0x2029) then
      esc "u" +:+ "202" +:+ String (hex (N.land c 0xF)) ""
    else bs
  end.

(** [appendString(dst, src, escapeHTML = true)] *)
Definition appendString (src : string) : string :=
  String quote (sconcat (map appendRune (utf8.runes src)) +:+ String quote "").

Fixpoint join (sep : string) (l : list string) : string :=
  match l with
  | [] => ""
  | [x] => x
  | x :: r => x +:+ sep +:+ join sep r
  end.

(** A [[]string] value. *)
Definition encodeValues (v : Values) : string :=
  match v with
  | None => "null"
  | Some l => "[" +:+ join "," (map appendString l) +:+ "]"
  end.

(** Map keys are written in increasing byte order. *)
Definition key_le {V} (x y : string * V) : Prop := String.le x.1 y.1.

Definition sortedEntries {V} (m : gmap string V) : list (string * V) :=
  merge_sort key_le (map_to_list m).

Definition encodeMember (kv : string * Values) : string :=
  appendString kv.1 +:+ ":" +:+ encodeValues kv.2.

(** A [map[string][]string] value. *)
Definition encodeHeader (h : Header) : string :=
  match h with
  | None => "null"
  | Some m => "{" +:+ join "," (map encodeMember (sortedEntries m)) +:+ "}"
  end.

(** [json.Marshal] of a [RequestPayload]; no value of the type makes the
    encoder fail, so the error is always nil. *)
Definition Marshal (v : RequestPayload) : string * option error :=
  ("{" +:+ appendString "method" +:+ ":" +:+ appendString (Method v) +:+
   "," +:+ appendString "uri" +:+ ":" +:+ appendString (URI v) +:+
   "," +:+ appendString "headers" +:+ ":" +:+ encodeHeader (Headers v) +:+
   "," +:+ appendString "body" +:+ ":" +:+ appendString (Body v) +:+ "}",
   None).

(** [json.Marshal] of a [gin.H] whose values are strings. *)
Definition MarshalH (h : gmap string string) : string :=
  "{" +:+ join ","
    (map (fun kv : string * string => appendString kv.1 +:+ ":" +:+ appendString kv.2)
         (sortedEntries h)) +:+ "}".

End json.


(** ** The world the programs run in *)

(** The body of a request as an [io.Reader]: the chunks still to be read
    and the way the stream ends ([None] is [io.EOF]). *)
Record Reader := mkReader {
  pending : list string;
  failure : option error
}.

Module http.
Record Request := mkRequest {
  Method : string;
  RequestURI : string;
  Header : Header;
  Body : Reader
}.
Definition StatusOK : nat := 200.
Definition StatusInternalServerError : nat := 500.
Definition MethodPost : string := "POST".
Definition MethodPut : string := "PUT".
End http.

(** What [c.JSON] wrote: the status code and the rendered JSON text. *)
Record Response := mkResponse {
  Status : nat;
  Payload : string
}.

Inductive Level := LevelInfo | LevelError.

(** One record handed to the default [slog] logger. *)
Record LogRecord := mkLog {
  level : Level;
  message : string;
  attrs : list (string * string)
}.

(** A queue backend at some address: whether it answers ([fault] is the
    error it gives otherwise) and what it stores under each key or topic. *)
Record Broker := mkBroker {
  fault : option error;
  stored : gmap string (list string)
}.

(** The calls made on backend clients, oldest first. *)
Inductive Call :=
| CallPing (addr : string)
| CallLPush (addr key value : string)
| CallProduceSync (seeds : list string) (topic value : string).

Record World := mkWorld {
  request : http.Request;         (* [c.Request] *)
  written : list Response;        (* what went through [c.JSON], oldest first *)
  logged : list LogRecord;        (* [slog], oldest first *)
  stdout : list string;           (* the lines of [fmt.Printf] and [fmt.Println];
                                     the text the [slog] handler writes for the
                                     records of [logged] is not among them *)
  net : gmap string Broker;       (* the backends, by address *)
  calls : list Call;
  flags : gmap string string;     (* the flags given on the command line *)
  bindErr : option error          (* why port 8080 cannot be bound, if so *)
}.

Definition M (A : Type) : Type := World -> A * World.

Definition ret {A} (a : A) : M A := fun w => (a, w).
Definition bind {A B} (m : M A) (k : A -> M B) : M B :=
  fun w => let '(a, w') := m w in k a w'.

Notation "'let*' x ':=' c1 'in' c2" := (bind c1 (fun x => c2))
  (at level 10, x pattern, c1 at level 100, c2 at level 200).

Definition set_request (r : http.Request) (w : World) : World :=
  mkWorld r (written w) (logged w) (stdout w) (net w) (calls w) (flags w) (bindErr w).
Definition set_written (l : list Response) (w : World) : World :=
  mkWorld (request w) l (logged w) (stdout w) (net w) (calls w) (flags w) (bindErr w).
Definition set_logged (l : list LogRecord) (w : World) : World :=
  mkWorld (request w) (written w) l (stdout w) (net w) (calls w) (flags w) (bindErr w).
Definition set_stdout (l : list string) (w : World) : World :=
  mkWorld (request w) (written w) (logged w) l (net w) (calls w) (flags w) (bindErr w).
Definition set_net (n : gmap string Broker) (w : World) : World :=
  mkWorld (request w) (written w) (logged w) (stdout w) n (calls w) (flags w) (bindErr w).
Definition set_calls (l : list Call) (w : World) : World :=
  mkWorld (request w) (written w) (logged w) (stdout w) (net w) l (flags w) (bindErr w).

Module io.
(** [io.ReadAll(c.Request.Body)]: everything up to the end of the stream
    or the first error, which is returned with what was read before it. *)
Definition ReadAll : M (string * option error) := fun w =>
  let r := http.Body (request w) in
  ((sconcat (pending r), failure r),
   set_request
     (http.mkRequest (http.Method (request w)) (http.RequestURI (request w))
        (http.Header (request w)) (mkReader [] (failure r))) w).
End io.

Module slog.
Definition String (key value : string) : string * string := (key, value).
Definition log (l : Level) (msg : string) (args : list (string * string)) : M unit :=
  fun w => (tt, set_logged (logged w ++ [mkLog l msg args]) w).
Definition Error := log LevelError.
Definition Info := log LevelInfo.
End slog.

Module fmt.
Definition Print (line : string) : M unit :=
  fun w => (tt, set_stdout (stdout w ++ [line]) w).
End fmt.

Module flag.
(** [flag.String(name, value, usage)] read after [flag.Parse()]. *)
Definition String (name value : string) : M string :=
  fun w => (default value (flags w !! name), w).
End flag.

Module gin.
(** [gin.H] with string values. *)
Abbreviation H := (gmap string string).

(** [c.JSON(code, obj)] *)
Definition JSON (code : nat) (obj : H) : M unit :=
  fun w => (tt, set_written (written w ++ [mkResponse code (json.MarshalH obj)]) w).

(** A route registered with [r.Any]. *)
Record Route := mkRoute {
  pattern : string;
  handler : M unit
}.
Abbreviation Engine := (list Route).
Definition Default : Engine := [].
Definition Any (relativePath : string) (h : M unit) (r : Engine) : Engine :=
  r ++ [mkRoute relativePath h].

(** [r.Run(addr)] returns only when the listener cannot be started; [None]
    stands for the call that stays in the serving loop. *)
Definition Run (r : Engine) (addr : string) : M (option error) :=
  fun w => (bindErr w, w).





End gin.

(** How [main] ends: it returns, or it stays in [r.Run] serving the routes
    of the engine. *)
Inductive Outcome :=
| Returned
| Serving (addr : string) (r : gin.Engine).

(** ** The Redis producer *)

Module context.
Inductive Context := Background.
End context.

Module redis.
Record Options := mkOptions { Addr : string; DB : nat }.
Abbreviation Client := Options.
Definition NewClient (opt : Options) : Client := opt.

(** The error of a command sent to an address where nothing listens. *)
Definition dialError (addr : string) : error :=
  errorString ("dial tcp " +:+ addr +:+ ": connect: connection refused").

(** The backend a client reaches, or why it cannot. *)
Definition reach (c : Client) (w : World) : Broker + error :=
  match net w !! Addr c with
  | None => inr (dialError (Addr c))
  | Some b => match fault b with Some e => inr e | None => inl b end
  end.

(** [rdb.Ping(ctx).Result()] *)
Definition Ping (c : Client) (ctx : option context.Context)
  : M (string * option error) := fun w =>
  let w' := set_calls (calls w ++ [CallPing (Addr c)]) w in
  match reach c w with
  | inr e => (("", Some e), w')
  | inl _ => (("PONG", None), w')
  end.

(** [rdb.LPush(ctx, key, value).Err()]: the value becomes the head of the
    list at [key]. *)
Definition LPush (c : Client) (ctx : option context.Context) (key value : string)
  : M (option error) := fun w =>
  let w' := set_calls (calls w ++ [CallLPush (Addr c) key value]) w in
  match reach c w with
  | inr e => (Some e, w')
  | inl b =>
    let l := default [] (stored b !! key) in
    (None, set_net (<[Addr c := mkBroker None (<[key := value :: l]> (stored b))]> (net w)) w')
  end.
End redis.

Module Redis.

(** [RedisClient] is a pointer and [Ctx] an interface value: [None] is nil. *)
Record Server := mkServer {
  RedisClient : option redis.Client;
  Ctx : option context.Context
}.

Definition NewServer (redisAddr : string) : M (Server * option error) :=
  let rdb := redis.NewClient (redis.mkOptions redisAddr 0) in
  let ctx := Some context.Background in
  let* (_, err) := redis.Ping rdb ctx in
  match err with
  | Some err =>
    ret (mkServer None None,
         Some (errorString ("failed to connect to Redis at " +:+ redisAddr +:+ ": " +:+ Error err)))
  | None => ret (mkServer (Some rdb) ctx, None)
  end.

Section Handler.
(** [json.Marshal], as the function the handler is given. *)
Variable Marshal : RequestPayload -> string * option error.

Definition parseRequest (s : Server) : M (RequestPayload * option error) :=
  let* (body, err) := io.ReadAll in
  match err with
  | Some err => ret (zeroPayload, Some err)
  | None => fun w =>
    (({| Method := http.Method (request w);
         URI := http.RequestURI (request w);
         Headers := http.Header (request w);
         Body := body |}, None), w)
  end.

(** A call on a nil client panics; it is given here as an error.  No
    server that [main] hands to the router has a nil client, and what is
    proved of the handler is proved for servers that hold one. *)
Definition pushToRedis (s : Server) (data : RequestPayload) : M (option error) :=
  let '(jsonData, err) := Marshal data in
  match err with
  | Some err => ret (Some err)
  | None =>
    match RedisClient s with
    | Some rdb => redis.LPush rdb (Ctx s) "request_queue" jsonData
    | None => ret (Some (errorString "invalid memory address or nil pointer dereference"))
    end
  end.

Definition handleRequest (s : Server) : M unit :=
  let* (requestData, err) := parseRequest s in
  match err with
  | Some err =>
    let* _ := gin.JSON http.StatusInternalServerError {[ "error" := "Failed to read request body" ]} in
    slog.Error "Failed to read request body" [slog.String "error" (Error err)]
  | None =>
    let* err := pushToRedis s requestData in
    match err with
    | Some err =>
      let* _ := gin.JSON http.StatusInternalServerError {[ "error" := "Failed to push to Redis queue" ]} in
      slog.Error "Failed to push to Redis queue" [slog.String "error" (Error err)]
    | None =>
      let* _ := slog.Info "Request added to Redis queue"
                  [slog.String "method" (Method requestData); slog.String "uri" (URI requestData)] in
      gin.JSON http.StatusOK {[ "message" := "Request added to Redis queue" ]}
    end
  end.

Definition main : M Outcome :=
  let* redisAddr := flag.String "redis" "localhost:6379" in
  let* (server, err) := NewServer redisAddr in
  match err with
  | Some err =>
    let* _ := slog.Error "Failed to initialize server" [slog.String "error" (Error err)] in
    ret Returned
  | None =>
    let* _ := slog.Info "Connected to Redis" [slog.String "address" redisAddr] in
    let r := gin.Default in
    let r := gin.Any "/*proxyPath" (handleRequest server) r in
    let* err := gin.Run r ":8080" in
    match err with
    | Some err =>
      let* _ := slog.Error "Failed to start server" [slog.String "error" (Error err)] in
      ret Returned
    | None => ret (Serving ":8080" r)
    end
  end.
End Handler.

End Redis.

(** ** The Kafka producer *)

Module strings.
(** [strings.Split(s, sep)] for a separator of one byte. *)
Fixpoint Split (s : string) (sep : ascii) : list string :=
  match s with
  | EmptyString => [""]
  | String c t =>
    if Ascii.eqb c sep then "" :: Split t sep
    else match Split t sep with
         | x :: r => String c x :: r
         | [] => [String c ""]
         end
  end.
End strings.

Module kgo.
Record Client := mkClient {
  seedBrokers : list string;
  groupID : string;
  topics : list string
}.

Inductive Opt :=
| SeedBrokers (seeds : list string)
| ConsumerGroup (group : string)
| ConsumeTopics (ts : list string).

(** The configuration a client starts from: one seed, the local broker. *)
Definition defaultCfg : Client := mkClient ["127.0.0.1:9092"] "" [].

Definition apply (c : Client) (o : Opt) : Client :=
  match o with
  | SeedBrokers seeds => mkClient seeds (groupID c) (topics c)
  | ConsumerGroup g => mkClient (seedBrokers c) g (topics c)
  | ConsumeTopics ts => mkClient (seedBrokers c) (groupID c) (topics c ++ ts)
  end.

(** [kgo.NewClient(opts...)] checks the options and opens no connection:
    brokers are dialled when the first request is written. *)
Definition NewClient (opts : list Opt) : option Client * option error :=
  let cfg := foldl apply defaultCfg opts in
  match seedBrokers cfg with
  | [] => (None, Some (errorString "config erroneously has no seed brokers"))
  | _ => (Some cfg, None)
  end.

Definition dialError : error := errorString "unable to dial: connection refused".

(** The first seed at which a broker listens. *)
Fixpoint dial (seeds : list string) (n : gmap string Broker) : option (string * Broker) :=
  match seeds with
  | [] => None
  | a :: r => match n !! a with Some b => Some (a, b) | None => dial r n end
  end.

(** [cl.ProduceSync(ctx, record).FirstErr()]: the record is appended to
    the log of its topic once the broker has acknowledged it.  While no
    seed answers the client retries; [dialError] is what the call ends
    with when it gives up. *)
Definition ProduceSync (c : Client) (ctx : option context.Context) (topic value : string)
  : M (option error) := fun w =>
  let w' := set_calls (calls w ++ [CallProduceSync (seedBrokers c) topic value]) w in
  match dial (seedBrokers c) (net w) with
  | None => (Some dialError, w')
  | Some (a, b) =>
    match fault b with
    | Some e => (Some e, w')
    | None =>
      let l := default [] (stored b !! topic) in
      (None, set_net (<[a := mkBroker None (<[topic := l ++ [value]]> (stored b))]> (net w)) w')
    end
  end.
End kgo.

Module Kafka.

(** [KafkaClient] is a pointer: [None] is nil. *)
Record Server := mkServer { KafkaClient : option kgo.Client }.

(** The result is a pointer to a [Server]: [None] is nil. *)
Definition NewServer (seeds : list string) : M (option Server * option error) :=
  let '(client, err) :=
    kgo.NewClient [kgo.ConsumerGroup "my-group-identifier"; kgo.ConsumeTopics ["foo"]] in
  match err with
  | Some err => ret (None, Some err)
  | None => ret (Some (mkServer client), None)
  end.

Section Handler.
Variable Marshal : RequestPayload -> string * option error.

Definition parseRequest (s : Server) : M (RequestPayload * option error) :=
  let* (body, err) := io.ReadAll in
  match err with
  | Some err => ret (zeroPayload, Some err)
  | None => fun w =>
    (({| Method := http.Method (request w);
         URI := http.RequestURI (request w);
         Headers := http.Header (request w);
         Body := body |}, None), w)
  end.

(** As in the Redis producer, a call on a nil client is given as an error. *)
Definition produce (s : Server) (data : RequestPayload) : M (option error) :=
  let '(jsonData, err) := Marshal data in
  match err with
  | Some err => ret (Some err)
  | None =>
    match KafkaClient s with
    | Some cl => kgo.ProduceSync cl (Some context.Background) "foo" jsonData
    | None => ret (Some (errorString "invalid memory address or nil pointer dereference"))
    end
  end.

Definition handleRequest (s : Server) : M unit :=
  let* (requestData, err) := parseRequest s in
  match err with
  | Some err =>
    let* _ := gin.JSON http.StatusInternalServerError {[ "error" := "Failed to read request body" ]} in
    slog.Error "Failed to read request body" [slog.String "error" (Error err)]
  | None =>
    let* err := produce s requestData in
    match err with
    | Some err =>
      let* _ := gin.JSON http.StatusInternalServerError {[ "error" := "Failed to push to Redis queue" ]} in
      slog.Error "Failed to push to Redis queue" [slog.String "error" (Error err)]
    | None =>
      let* _ := slog.Info "Request added to Redis queue"
                  [slog.String "method" (Method requestData); slog.String "uri" (URI requestData)] in
      gin.JSON http.StatusOK {[ "message" := "Request added to Redis queue" ]}
    end
  end.

Definition main : M Outcome :=
  let* kafkaAddrRaw := flag.String "kafka address" "localhost:9092" in
  let kafkaAddr := strings.Split kafkaAddrRaw "," in
  let* (server, err) := NewServer kafkaAddr in
  match err, server with
  | None, Some server =>
    let* _ := slog.Info "Connected to kafka" [slog.String "address" kafkaAddrRaw] in
    let r := gin.Default in
    let r := gin.Any "/*proxyPath" (handleRequest server) r in
    let* err := gin.Run r ":8080" in
    match err with
    | Some err =>
      let* _ := slog.Error "Failed to start server" [slog.String "error" (Error err)] in
      ret Returned
    | None => ret (Serving ":8080" r)
    end
  | Some err, _ =>
    let* _ := slog.Error "Failed to initialize server" [slog.String "error" (Error err)] in
    ret Returned
  | None, None => ret Returned
  end.
End Handler.

End Kafka.

(** ** The console printer *)

Module Printer.

Definition newline : string := String (chr 10) "".

(** [%s] of a [[]string]. *)
Definition showValues (v : Values) : string :=
  "[" +:+ json.join " " (default [] v) +:+ "]".

Fixpoint printHeaders (l : list (string * Values)) : M unit :=
  match l with
  | [] => ret tt
  | (k, v) :: r =>
    let* _ := fmt.Print (k +:+ ": " +:+ showValues v +:+ newline) in
    printHeaders r
  end.

(** The handler given to [r.Any].  The language leaves open the order in
    which [range] visits the names of the header map: [range] is that
    order, some listing of the entries of the map. *)
Definition handler (range : gmap string Values -> list (string * Values)) : M unit :=
  let* req := (fun w => (request w, w)) in
  let* _ := fmt.Print ("Method: " +:+ http.Method req +:+ newline) in
  let* _ := fmt.Print ("URI: " +:+ http.RequestURI req +:+ newline) in
  let* _ := fmt.Print ("Headers:" +:+ newline) in
  let* _ := printHeaders (range (default ∅ (http.Header req))) in
  let* _ :=
    if String.eqb (http.Method req) http.MethodPost || String.eqb (http.Method req) http.MethodPut
    then
      let* (body, err) := io.ReadAll in
      match err with
      | None => fmt.Print ("Body: " +:+ body +:+ newline)
      | Some _ => ret tt
      end
    else ret tt in
  gin.JSON http.StatusOK {[ "message" := "Request received and printed to console" ]}.

Definition main (range : gmap string Values -> list (string * Values)) : M Outcome :=
  let r := gin.Default in
  let r := gin.Any "/*proxyPath" (handler range) r in
  let* err := gin.Run r ":8080" in
  match err with
  | Some _ => ret Returned
  | None => ret (Serving ":8080" r)
  end.

End Printer.

(** ** encoding/json, decoder *)

Module decode.

Import json.

Definition isSpace (b : N) : bool :=
  (b =? 32) || (b =? 9) || (b =? 13) || (b =? 10).

Fixpoint skipSpace (s : string) : string :=
  match s with
  | String c t => if isSpace (byte c) then skipSpace t else s
  | EmptyString => s
  end.

Definition hexval (b : N) : option N :=
  if (48 <=? b) && (b <=? 57) then Some (b - 48)
  else if (97 <=? b) && (b <=? 102) then Some (b - 87)
  else if (65 <=? b) && (b <=? 70) then Some (b - 55)
  else None.

(** [getu4]: the number the four hexadecimal digits of [\uXXXX] write. *)
Definition getu4 (c1 c2 c3 c4 : ascii) : option N :=
  match hexval (byte c1), hexval (byte c2), hexval (byte c3), hexval (byte c4) with
  | Some a, Some b, Some c, Some d => Some (((a * 16 + b) * 16 + c) * 16 + d)
  | _, _, _, _ => None
  end.

(** [utf16.IsSurrogate] and [utf16.DecodeRune] *)
Definition IsSurrogate (r : N) : bool := (0xD800 <=? r) && (r <? 0xE000).
Definition DecodeSurrogates (r1 r2 : N) : N :=
  if (0xD800 <=? r1) && (r1 <? 0xDC00) && (0xDC00 <=? r2) && (r2 <? 0xE000)
  then N.lor (N.shiftl (r1 - 0xD800) 10) (r2 - 0xDC00) + 0x10000
  else utf8.RuneError.

(** The byte a two-character escape stands for. *)
Definition simpleEscape (b : N) : option ascii :=
  if (b =? 34) || (b =? 92) || (b =? 47) then Some (chr b)
  else if b =? 98 then Some (chr 8)
  else if b =? 102 then Some (chr 12)
  else if b =? 110 then Some (chr 10)
  else if b =? 114 then Some (chr 13)
  else if b =? 116 then Some (chr 9)
  else None.

Definition prepend {A} (x : string) (o : option (string * A)) : option (string * A) :=
  match o with
  | Some (a, r) => Some (x +:+ a, r)
  | None => None
  end.

(** Modelled from the spec: the string literals of [deserialize], which is
    not in the source, read as [encoding/json] reads them.  The result is
    the text of a literal from just after its opening quote, and what
    follows the closing quote.  Bytes that are not valid UTF-8 are replaced
    by U+FFFD; [skip] is as in [utf8.runes_from]. *)
Fixpoint unquote_from (skip : nat) (s : string) : option (string * string) :=
  match s with
  | EmptyString => None
  | String c t =>
    match skip with
    | S k => unquote_from k t
    | O =>
      let b := byte c in
      if b =? 34 then Some ("", t)
      else if b =? 92 then
        match t with
        | EmptyString => None
        | String e t1 =>
          if byte e =? 117 then
            match t1 with
            | String h1 (String h2 (String h3 (String h4 t2))) =>
              match getu4 h1 h2 h3 h4 with
              | None => None
              | Some rr =>
                if IsSurrogate rr then
                  match t2 with
                  | String b1 (String u1 (String g1 (String g2 (String g3 (String g4 t3))))) =>
                    match (if (byte b1 =? 92) && (byte u1 =? 117)
                           then getu4 g1 g2 g3 g4 else None) with
                    | Some rr1 =>
                      let dec := DecodeSurrogates rr rr1 in
                      if dec =? utf8.RuneError
                      then prepend (utf8.EncodeRune utf8.RuneError) (unquote_from 0 t2)
                      else prepend (utf8.EncodeRune dec) (unquote_from 0 t3)
                    | None => prepend (utf8.EncodeRune utf8.RuneError) (unquote_from 0 t2)
                    end
                  | _ => prepend (utf8.EncodeRune utf8.RuneError) (unquote_from 0 t2)
                  end
                else prepend (utf8.EncodeRune rr) (unquote_from 0 t2)
              end
            | _ => None
            end
          else
            match simpleEscape (byte e) with
            | Some ch => prepend (String ch "") (unquote_from 0 t1)
            | None => None
            end
        end
      else if b <? 0x20 then None
      else if b <? utf8.RuneSelf then prepend (String c "") (unquote_from 0 t)
      else
        let '(rr, size) := utf8.DecodeRuneInString s in
        prepend (utf8.EncodeRune rr) (unquote_from (size - 1) t)
    end
  end.

(** A string literal at the head of the input. *)
Definition stringLit (s : string) : option (string * string) :=
  match s with
  | String c t => if byte c =? 34 then unquote_from 0 t else None
  | EmptyString => None
  end.

Definition nullLit (s : string) : option string :=
  match s with
  | String "n" (String "u" (String "l" (String "l" t))) => Some t
  | _ => None
  end.

(** A string field: a literal, or [null], which leaves the field as it is. *)
Definition stringValue (old : string) (s : string) : option (string * string) :=
  match nullLit s with
  | Some r => Some (old, r)
  | None => stringLit s
  end.

(** Modelled from the spec: the arrays of [deserialize].  The elements of
    a [[]string] after the opening bracket, up to and with the closing
    one. *)
Fixpoint elements (fuel : nat) (s : string) : option (list string * string) :=
  match fuel with
  | O => None
  | S f =>
    match stringValue "" (skipSpace s) with
    | None => None
    | Some (v, r) =>
      match skipSpace r with
      | String c t =>
        if byte c =? 44 then
          match elements f t with
          | Some (l, r') => Some (v :: l, r')
          | None => None
          end
        else if byte c =? 93 then Some ([v], t)
        else None
      | EmptyString => None
      end
    end
  end.

(** A [[]string] value: [null] is the nil slice. *)
Definition values (fuel : nat) (s : string) : option (Values * string) :=
  match nullLit s with
  | Some r => Some (None, r)
  | None =>
    match s with
    | String c t =>
      if byte c =? 91 then
        match skipSpace t with
        | String c' t' =>
          if byte c' =? 93 then Some (Some [], t')
          else match elements fuel t with
               | Some (l, r) => Some (Some l, r)
               | None => None
               end
        | EmptyString => None
        end
      else None
    | EmptyString => None
    end
  end.

(** Modelled from the spec: the header object of [deserialize].  Its
    members after the opening brace, stored into [m] one by one. *)
Fixpoint members (fuel : nat) (s : string) (m : gmap string Values)
  : option (gmap string Values * string) :=
  match fuel with
  | O => None
  | S f =>
    match stringLit (skipSpace s) with
    | None => None
    | Some (k, r) =>
      match skipSpace r with
      | String c t =>
        if byte c =? 58 then
          match values f (skipSpace t) with
          | None => None
          | Some (v, r') =>
            match skipSpace r' with
            | String c' t' =>
              if byte c' =? 44 then members f t' (<[k := v]> m)
              else if byte c' =? 125 then Some (<[k := v]> m, t')
              else None
            | EmptyString => None
            end
          end
        else None
      | EmptyString => None
      end
    end
  end.

(** A [map[string][]string] value: [null] is the nil map, an object is
    stored into the map the field holds, or into a new one. *)
Definition header (fuel : nat) (old : Header) (s : string) : option (Header * string) :=
  match nullLit s with
  | Some r => Some (None, r)
  | None =>
    match s with
    | String c t =>
      if byte c =? 123 then
        match skipSpace t with
        | String c' t' =>
          if byte c' =? 125 then Some (Some (default ∅ old), t')
          else match members fuel t (default ∅ old) with
               | Some (m, r) => Some (Some m, r)
               | None => None
               end
        | EmptyString => None
        end
      else None
    | EmptyString => None
    end
  end.

(** The value of the field named [key], decoded into [p]. *)
Definition field (fuel : nat) (key : string) (p : RequestPayload) (s : string)
  : option (RequestPayload * string) :=
  if String.eqb key "method" then
    match stringValue (Method p) s with
    | Some (v, r) => Some (mkPayload v (URI p) (Headers p) (Body p), r)
    | None => None
    end
  else if String.eqb key "uri" then
    match stringValue (URI p) s with
    | Some (v, r) => Some (mkPayload (Method p) v (Headers p) (Body p), r)
    | None => None
    end
  else if String.eqb key "headers" then
    match header fuel (Headers p) s with
    | Some (v, r) => Some (mkPayload (Method p) (URI p) v (Body p), r)
    | None => None
    end
  else if String.eqb key "body" then
    match stringValue (Body p) s with
    | Some (v, r) => Some (mkPayload (Method p) (URI p) (Headers p) v, r)
    | None => None
    end
  else None.

(** Modelled from the spec: the payload object of [deserialize].  Its
    members after the opening brace. *)
Fixpoint fields (fuel : nat) (s : string) (p : RequestPayload)
  : option (RequestPayload * string) :=
  match fuel with
  | O => None
  | S f =>
    match stringLit (skipSpace s) with
    | None => None
    | Some (k, r) =>
      match skipSpace r with
      | String c t =>
        if byte c =? 58 then
          match field f k p (skipSpace t) with
          | None => None
          | Some (p', r') =>
            match skipSpace r' with
            | String c' t' =>
              if byte c' =? 44 then fields f t' p'
              else if byte c' =? 125 then Some (p', t')
              else None
            | EmptyString => None
            end
          end
        else None
      | EmptyString => None
      end
    end
  end.

(** Modelled from the spec: [deserialize], the inverse of [serialize] that
    the consumers of the queue run, is not in the source.  It is taken here
    as the JSON decoding of a [RequestPayload] that [encoding/json] does for
    the text [json.Marshal] writes: an object whose members are the four
    fields, in any order and with any white space; a member with another
    name is a [DecodeFailure]. *)
Definition Unmarshal (data : string) : option RequestPayload :=
  let fuel := String.length data in
  match skipSpace data with
  | String c t =>
    if byte c =? 123 then
      match
        (match skipSpace t with
         | String c' t' =>
           if byte c' =? 125 then Some (zeroPayload, t')
           else fields fuel t zeroPayload
         | EmptyString => None
         end)
      with
      | Some (p, r) =>
        match skipSpace r with
        | EmptyString => Some p
        | String _ _ => None
        end
      | None => None
      end
    else None
  | EmptyString => None
  end.

End decode.

(** ** What a run of the handler is observed by *)

(** The envelope [capture] builds from the request of [w]. *)
Definition captured (w : World) : RequestPayload :=
  {| Method := http.Method (request w);
     URI := http.RequestURI (request w);
     Headers := http.Header (request w);
     Body := sconcat (pending (http.Body (request w))) |}.

(** How far a request gets: the states of the bridge. *)
Inductive Stage :=
| CaptureFailed (e : error)
| SerializeFailed (e : error)
| EnqueueFailed (e : error)
| Enqueued (data : string).

Definition stageOf (Marshal : RequestPayload -> string * option error)
    (backendErr : option error) (w : World) : Stage :=
  match failure (http.Body (request w)) with
  | Some e => CaptureFailed e
  | None =>
    match Marshal (captured w) with
    | (_, Some e) => SerializeFailed e
    | (data, None) =>
      match backendErr with
      | Some e => EnqueueFailed e
      | None => Enqueued data
      end
    end
  end.

(** The error the backend of a client answers with in [w], if any. *)
Definition redisErr (rdb : redis.Client) (w : World) : option error :=
  match redis.reach rdb w with
  | inr e => Some e
  | inl _ => None
  end.

Definition kafkaErr (cl : kgo.Client) (w : World) : option error :=
  match kgo.dial (kgo.seedBrokers cl) (net w) with
  | None => Some kgo.dialError
  | Some (_, b) => fault b
  end.

(** The number of times an enqueue primitive was invoked. *)
Definition isEnqueue (c : Call) : bool :=
  match c with
  | CallPing _ => false
  | CallLPush _ _ _ | CallProduceSync _ _ _ => true
  end.
Definition enqueues (w : World) : nat := length (List.filter isEnqueue (calls w)).

(** The text [{"k":"v"}] of a JSON object with one member. *)
Definition object1 (k v : string) : string :=
  "{" +:+ String json.quote (k +:+ String json.quote (":" +:+
    String json.quote (v +:+ String json.quote "}"))).

(** The request of [w] with a body that ends well after [chunks], or that
    breaks with [e]. *)
Definition withBody (chunks : list string) (end_ : option error) (w : World) : World :=
  set_request
    (http.mkRequest (http.Method (request w)) (http.RequestURI (request w))
       (http.Header (request w)) (mkReader chunks end_)) w.

(** Every backend of [w] answering with the error [e]. *)
Definition broken (e : error) (w : World) : World :=
  set_net ((fun b => mkBroker (Some e) (stored b)) <$> net w) w.

(** The response each stage is answered with. *)
Definition responseOf (s : Stage) : Response :=
  match s with
  | CaptureFailed _ => mkResponse 500 (object1 "error" "Failed to read request body")
  | SerializeFailed _ | EnqueueFailed _ =>
    mkResponse 500 (object1 "error" "Failed to push to Redis queue")
  | Enqueued _ => mkResponse 200 (object1 "message" "Request added to Redis queue")
  end.

(** ** The header of a request *)

(** What a header map holds for a name: nothing, or the sequence of its
    values. *)
Definition entry (name : string) (h : Header) : option Values :=
  match h with
  | Some m => m !! name
  | None => None
  end.

(** ** Failures and routing *)

(** After a failure at some stage the run from [w] to [w'] has written one
    500 response whose body is the fixed message of the stage, and one
    record at error level that holds the text of the error. *)
Definition failureAnswered (s : Stage) (w w' : World) : Prop :=
  match s with
  | CaptureFailed e =>
    written w' = written w ++ [mkResponse 500 (object1 "error" "Failed to read request body")] /\
    logged w' = logged w ++ [mkLog LevelError "Failed to read request body" [("error", Error e)]]
  | SerializeFailed e | EnqueueFailed e =>
    written w' = written w ++ [mkResponse 500 (object1 "error" "Failed to push to Redis queue")] /\
    logged w' = logged w ++ [mkLog LevelError "Failed to push to Redis queue" [("error", Error e)]]
  | Enqueued _ => True
  end.


(** ** Worlds used as examples *)

Definition postRequest : http.Request :=
  http.mkRequest "POST" "/orders?id=7"
    (Some {[ "X-Tag" := Some ["a"; "b"]; "Accept" := Some ["text/plain"] ]})
    (mkReader ["{"; "}"] None).



(** A POST request whose body breaks off while it is read. *)
Definition brokenPost : World :=
  mkWorld (http.mkRequest "POST" "/upload" (Some ∅)
             (mkReader ["par"] (Some (errorString "unexpected EOF"))))
    [] [] [] ∅ [] ∅ None.

(** No backend listens anywhere. *)
Definition offline : World :=
  mkWorld postRequest [] [] [] ∅ [] ∅ None.

Definition localRedis : redis.Client := redis.mkOptions "localhost:6379" 0.
Definition localKafka : kgo.Client :=
  kgo.mkClient ["127.0.0.1:9092"] "my-group-identifier" ["foo"].

(** One run of each handler, for a server holding the given client. *)
Definition redisRun (Marshal : RequestPayload -> string * option error)
    (rdb : redis.Client) (w : World) : World :=
  (Redis.handleRequest Marshal (Redis.mkServer (Some rdb) (Some context.Background)) w).2.
Definition kafkaRun (Marshal : RequestPayload -> string * option error)
    (kc : kgo.Client) (w : World) : World :=
  (Kafka.handleRequest Marshal (Kafka.mkServer (Some kc)) w).2.

(** ** Envelopes that are text *)

Definition validValues (v : Values) : bool :=
  match v with
  | None => true
  | Some l => forallb utf8.ValidString l
  end.

Definition validHeader (h : Header) : bool :=
  match h with
  | None => true
  | Some m =>
    forallb (fun kv : string * Values => utf8.ValidString kv.1 && validValues kv.2)
      (map_to_list m)
  end.

(** Every string of the envelope is valid UTF-8. *)
Definition ValidPayload (p : RequestPayload) : bool :=
  utf8.ValidString (Method p) && utf8.ValidString (URI p) &&
  validHeader (Headers p) && utf8.ValidString (Body p).

(** An envelope whose body is the single byte 0xFF. *)
Definition binaryBody : RequestPayload :=
  {| Method := "POST"; URI := "/upload"; Headers := None;
     Body := String (chr 0xFF) "" |}.

(** The envelope [capture] gives for [postRequest]. *)
Definition postPayload : RequestPayload :=
  {| Method := "POST"; URI := "/orders?id=7";
     Headers := http.Header postRequest; Body := "{}" |}.

(** A well-formed encoding [bs] of the code point [c]. *)
Inductive Rune : N -> string -> Prop :=
| Rune1 c0 :
    utf8.first (byte c0) = utf8.Single ->
    Rune (byte c0) (String c0 "")
| Rune2 c0 c1 lo hi :
    utf8.first (byte c0) = utf8.Multi 2 lo hi ->
    lo <= byte c1 -> byte c1 <= hi ->
    Rune (N.lor (N.shiftl (N.land (byte c0) 0x1F) 6) (N.land (byte c1) 0x3F))
         (String c0 (String c1 ""))
| Rune3 c0 c1 c2 lo hi :
    utf8.first (byte c0) = utf8.Multi 3 lo hi ->
    lo <= byte c1 -> byte c1 <= hi -> utf8.cont (byte c2) = true ->
    Rune (N.lor (N.lor (N.shiftl (N.land (byte c0) 0x0F) 12)
                       (N.shiftl (N.land (byte c1) 0x3F) 6))
                (N.land (byte c2) 0x3F))
         (String c0 (String c1 (String c2 "")))
| Rune4 c0 c1 c2 c3 lo hi :
    utf8.first (byte c0) = utf8.Multi 4 lo hi ->
    lo <= byte c1 -> byte c1 <= hi ->
    utf8.cont (byte c2) = true -> utf8.cont (byte c3) = true ->
    Rune (N.lor (N.lor (N.lor (N.shiftl (N.land (byte c0) 0x07) 18)
                              (N.shiftl (N.land (byte c1) 0x3F) 12))
                       (N.shiftl (N.land (byte c2) 0x3F) 6))
                (N.land (byte c3) 0x3F))
         (String c0 (String c1 (String c2 (String c3 "")))).

(** The members [json.Marshal] writes between the braces, followed by [t]. *)
Definition membersText (p : RequestPayload) (t : string) : string :=
  json.appendString "method" +:+ String ":" (json.appendString (Method p) +:+ String ","
  (json.appendString "uri" +:+ String ":" (json.appendString (URI p) +:+ String ","
  (json.appendString "headers" +:+ String ":" (json.encodeHeader (Headers p) +:+ String ","
  (json.appendString "body" +:+ String ":" (json.appendString (Body p) +:+ String "}" t))))))).

(** ** The backends after an enqueue *)

(** The backends after [value] went to the head of the list at [key] of
    the backend at [addr]. *)
Definition lpushed (addr key value : string) (n : gmap string Broker) : gmap string Broker :=
  match n !! addr with
  | Some b =>
    <[addr := mkBroker None (<[key := value :: default [] (stored b !! key)]> (stored b))]> n
  | None => n
  end.

(** The backends after [value] went to the end of the log of [topic] at
    the first seed that listens. *)
Definition produced (seeds : list string) (topic value : string) (n : gmap string Broker)
  : gmap string Broker :=
  match kgo.dial seeds n with
  | Some (a, b) =>
    <[a := mkBroker None (<[topic := default [] (stored b !! topic) ++ [value]]> (stored b))]> n
  | None => n
  end.

(** The handler run on each of the requests in turn, as for requests that
    arrive one after the other. *)
Fixpoint serveAll (h : M unit) (reqs : list http.Request) (w : World) : World :=
  match reqs with
  | [] => w
  | r :: rest => serveAll h rest (h (set_request r w)).2
  end.

(** The envelope of a request whose body ends well. *)
Definition payloadOf (r : http.Request) : RequestPayload :=
  {| Method := http.Method r; URI := http.RequestURI r; Headers := http.Header r;
     Body := sconcat (pending (http.Body r)) |}.

Definition serialized (r : http.Request) : string := (json.Marshal (payloadOf r)).1.

(** ** What the printer prints for a header *)

Definition headerLine (kv : string * Values) : string :=
  kv.1 +:+ ": " +:+ Printer.showValues kv.2 +:+ Printer.newline.

(** ** The bytes of a text *)

(** The number of bytes of [s] that are [sep]. *)
Fixpoint occurrences (sep : ascii) (s : string) : nat :=
  match s with
  | EmptyString => 0
  | String c t => (if Ascii.eqb c sep then 1 else 0) + occurrences sep t
  end.

(** A byte the encoder writes as it is or as part of an escape: printable
    ASCII other than the three characters escaped for HTML. *)
Definition plain (c : ascii) : bool :=
  (0x20 <=? byte c) && (byte c <? 0x80) &&
  negb ((byte c =? 38) || (byte c =? 60) || (byte c =? 62)).

Fixpoint allPlain (s : string) : bool :=
  match s with
  | EmptyString => true
  | String c t => plain c && allPlain t
  end.

(** No control byte and none of [<], [>], [&]. *)
Fixpoint lineSafe (s : string) : bool :=
  match s with
  | EmptyString => true
  | String c t =>
    (0x20 <=? byte c) && negb ((byte c =? 38) || (byte c =? 60) || (byte c =? 62))
    && lineSafe t
  end.

(** ** More worlds used as examples *)

(** A backend that answers, holding one earlier entry. *)
Definition idleBroker : Broker :=
  mkBroker None {[ "request_queue" := ["earlier"]; "foo" := ["earlier"] ]}.

(** Both backends listen. *)
Definition online : World :=
  mkWorld postRequest [] [] []
    {[ "localhost:6379" := idleBroker; "127.0.0.1:9092" := idleBroker ]} [] ∅ None.

Definition getRequest : http.Request :=
  http.mkRequest "GET" "/search?q=1" (Some ∅) (mkReader [] None).


(** * Proofs *)

Local Arguments String.append !_ _ / : simpl nomatch.

(** ** Bit operations as arithmetic *)

Lemma land_shiftl_low a b k : b < 2 ^ k -> N.land (N.shiftl a k) b = 0.
Proof.
  intros Hb. apply N.bits_inj_0. intros n. rewrite N.land_spec.
  destruct (N.lt_ge_cases n k) as [Hn|Hn].
  - rewrite N.shiftl_spec_low by assumption. reflexivity.
  - rewrite <- (N.mod_small b (2 ^ k)) by assumption.
    rewrite N.mod_pow2_bits_high by assumption. apply andb_false_r.
Qed.

Lemma lor_shiftl_add a b k : b < 2 ^ k -> N.lor (N.shiftl a k) b = a * 2 ^ k + b.
Proof.
  intros Hb. rewrite <- N.lxor_lor by (apply land_shiftl_low; assumption).
  rewrite <- N.add_nocarry_lxor by (apply land_shiftl_low; assumption).
  rewrite N.shiftl_mul_pow2. reflexivity.
Qed.

Lemma lor_add_disjoint k a b : a mod 2 ^ k = 0 -> b < 2 ^ k -> N.lor a b = a + b.
Proof.
  intros Ha Hb.
  assert (a = N.shiftl (a / 2 ^ k) k) as Ea.
  { rewrite N.shiftl_mul_pow2. rewrite (N.div_mod a (2 ^ k)) at 1 by (apply N.pow_nonzero; discriminate).
    rewrite Ha. lia. }
  rewrite Ea at 1. rewrite lor_shiftl_add by assumption.
  rewrite <- N.shiftl_mul_pow2, <- Ea. reflexivity.
Qed.

Ltac nlia := zify; Z.to_euclidean_division_equations; lia.

Lemma land_mod_3F x : N.land x 0x3F = x mod 64.
Proof. change 0x3F with (N.ones 6). apply N.land_ones. Qed.
Lemma land_mod_1F x : N.land x 0x1F = x mod 32.
Proof. change 0x1F with (N.ones 5). apply N.land_ones. Qed.
Lemma land_mod_0F x : N.land x 0x0F = x mod 16.
Proof. change 0x0F with (N.ones 4). apply N.land_ones. Qed.
Lemma land_mod_07 x : N.land x 0x07 = x mod 8.
Proof. change 0x07 with (N.ones 3). apply N.land_ones. Qed.

Ltac bits :=
  rewrite ?land_mod_3F, ?land_mod_1F, ?land_mod_0F, ?land_mod_07,
    ?N.shiftl_mul_pow2, ?N.shiftr_div_pow2;
  change (2 ^ 6) with 64; change (2 ^ 12) with 4096; change (2 ^ 18) with 262144.

Lemma lor_add (k a b : N) : a mod 2 ^ k = 0 -> b < 2 ^ k -> N.lor a b = a + b.
Proof. apply lor_add_disjoint. Qed.

Lemma rune2_value s0 s1 :
  0xC2 <= s0 -> s0 <= 0xDF -> 0x80 <= s1 -> s1 <= 0xBF ->
  N.lor (N.shiftl (N.land s0 0x1F) 6) (N.land s1 0x3F) = (s0 - 0xC0) * 64 + (s1 - 0x80).
Proof.
  intros. bits. rewrite (lor_add 6) by (change (2 ^ 6) with 64; nlia). nlia.
Qed.

Lemma rune3_value s0 s1 s2 :
  0xE0 <= s0 -> s0 <= 0xEF -> 0x80 <= s1 -> s1 <= 0xBF -> 0x80 <= s2 -> s2 <= 0xBF ->
  N.lor (N.lor (N.shiftl (N.land s0 0x0F) 12) (N.shiftl (N.land s1 0x3F) 6)) (N.land s2 0x3F)
  = (s0 - 0xE0) * 4096 + (s1 - 0x80) * 64 + (s2 - 0x80).
Proof.
  intros. bits.
  rewrite (lor_add 12 (s0 mod 16 * 4096)) by (change (2 ^ 12) with 4096; nlia).
  rewrite (lor_add 6) by (change (2 ^ 6) with 64; nlia). nlia.
Qed.

Lemma rune4_value s0 s1 s2 s3 :
  0xF0 <= s0 -> s0 <= 0xF4 -> 0x80 <= s1 -> s1 <= 0xBF -> 0x80 <= s2 -> s2 <= 0xBF ->
  0x80 <= s3 -> s3 <= 0xBF ->
  N.lor (N.lor (N.lor (N.shiftl (N.land s0 0x07) 18) (N.shiftl (N.land s1 0x3F) 12))
               (N.shiftl (N.land s2 0x3F) 6)) (N.land s3 0x3F)
  = (s0 - 0xF0) * 262144 + (s1 - 0x80) * 4096 + (s2 - 0x80) * 64 + (s3 - 0x80).
Proof.
  intros. bits.
  rewrite (lor_add 18 (s0 mod 8 * 262144)) by (change (2 ^ 18) with 262144; nlia).
  rewrite (lor_add 12 (s0 mod 8 * 262144 + s1 mod 64 * 4096))
    by (change (2 ^ 12) with 4096; nlia).
  rewrite (lor_add 6) by (change (2 ^ 6) with 64; nlia). nlia.
Qed.

(** Encoding the value of a well-formed sequence gives the sequence back. *)
Lemma encode2 s0 s1 :
  0xC2 <= s0 -> s0 <= 0xDF -> 0x80 <= s1 -> s1 <= 0xBF ->
  utf8.EncodeRune ((s0 - 0xC0) * 64 + (s1 - 0x80)) =
  String (chr s0) (String (chr s1) "").
Proof.
  intros. unfold utf8.EncodeRune.
  destruct (N.leb_spec ((s0 - 192) * 64 + (s1 - 128)) 0x7F); [nlia|].
  destruct (N.leb_spec ((s0 - 192) * 64 + (s1 - 128)) 0x7FF); [|nlia].
  bits. rewrite (lor_add 6 0xC0), (lor_add 6 0x80) by (change (2 ^ 6) with 64; nlia || reflexivity).
  f_equal; [f_equal; nlia | f_equal; f_equal; nlia].
Qed.

Lemma if_surrogate (c : N) (A : Type) (x y : A) :
  c <= 0x10FFFF -> c < 0xD800 \/ 0xDFFF < c ->
  (if (0x10FFFF <? c) || ((0xD800 <=? c) && (c <=? 0xDFFF)) then x else y) = y.
Proof.
  intros H1 H2. destruct (N.ltb_spec 0x10FFFF c); [lia|].
  destruct (N.leb_spec 0xD800 c); destruct (N.leb_spec c 0xDFFF); simpl; try reflexivity; lia.
Qed.

Lemma encode3 s0 s1 s2 :
  0xE0 <= s0 -> s0 <= 0xEF -> 0x80 <= s1 -> s1 <= 0xBF -> 0x80 <= s2 -> s2 <= 0xBF ->
  (s0 = 0xE0 -> 0xA0 <= s1) -> (s0 = 0xED -> s1 <= 0x9F) ->
  utf8.EncodeRune ((s0 - 0xE0) * 4096 + (s1 - 0x80) * 64 + (s2 - 0x80)) =
  String (chr s0) (String (chr s1) (String (chr s2) "")).
Proof.
  intros. unfold utf8.EncodeRune.
  set (c := (s0 - 0xE0) * 4096 + (s1 - 0x80) * 64 + (s2 - 0x80)).
  assert (0x800 <= c /\ c <= 0xFFFF) as [L1 L2] by (subst c; lia).
  assert (c < 0xD800 \/ 0xDFFF < c) as L3 by (subst c; lia).
  assert (c / 4096 = s0 - 0xE0) as Q0
    by (subst c; symmetry; apply (N.div_unique _ _ _ ((s1 - 0x80) * 64 + (s2 - 0x80))); lia).
  assert (c / 64 = (s0 - 0xE0) * 64 + (s1 - 0x80)) as Q1
    by (subst c; symmetry; apply (N.div_unique _ _ _ (s2 - 0x80)); lia).
  assert (c mod 64 = s2 - 0x80) as Q2
    by (subst c; symmetry; apply (N.mod_unique _ _ ((s0 - 0xE0) * 64 + (s1 - 0x80))); lia).
  assert ((c / 64) mod 64 = s1 - 0x80) as Q3
    by (rewrite Q1; symmetry; apply (N.mod_unique _ _ (s0 - 0xE0)); lia).
  destruct (N.leb_spec c 0x7F); [lia|].
  destruct (N.leb_spec c 0x7FF); [lia|].
  rewrite if_surrogate by lia.
  destruct (N.leb_spec c 0xFFFF); [|lia].
  bits. rewrite Q0, Q3, Q2.
  rewrite (lor_add 4 0xE0), !(lor_add 6 0x80)
    by (reflexivity || (change (2 ^ 6) with 64; change (2 ^ 4) with 16; lia)).
  f_equal; [f_equal; lia | f_equal; [f_equal; lia | f_equal; f_equal; lia]].
Qed.

Lemma encode4 s0 s1 s2 s3 :
  0xF0 <= s0 -> s0 <= 0xF4 -> 0x80 <= s1 -> s1 <= 0xBF -> 0x80 <= s2 -> s2 <= 0xBF ->
  0x80 <= s3 -> s3 <= 0xBF ->
  (s0 = 0xF0 -> 0x90 <= s1) -> (s0 = 0xF4 -> s1 <= 0x8F) ->
  utf8.EncodeRune ((s0 - 0xF0) * 262144 + (s1 - 0x80) * 4096 + (s2 - 0x80) * 64 + (s3 - 0x80)) =
  String (chr s0) (String (chr s1) (String (chr s2) (String (chr s3) ""))).
Proof.
  intros. unfold utf8.EncodeRune.
  set (c := (s0 - 0xF0) * 262144 + (s1 - 0x80) * 4096 + (s2 - 0x80) * 64 + (s3 - 0x80)).
  assert (0x10000 <= c /\ c <= 0x10FFFF) as [L1 L2] by (subst c; lia).
  assert (c / 262144 = s0 - 0xF0) as Q0
    by (subst c; symmetry;
        apply (N.div_unique _ _ _ ((s1 - 0x80) * 4096 + (s2 - 0x80) * 64 + (s3 - 0x80))); lia).
  assert (c / 4096 = (s0 - 0xF0) * 64 + (s1 - 0x80)) as Q1
    by (subst c; symmetry; apply (N.div_unique _ _ _ ((s2 - 0x80) * 64 + (s3 - 0x80))); lia).
  assert (c / 64 = (s0 - 0xF0) * 4096 + (s1 - 0x80) * 64 + (s2 - 0x80)) as Q2
    by (subst c; symmetry; apply (N.div_unique _ _ _ (s3 - 0x80)); lia).
  assert ((c / 4096) mod 64 = s1 - 0x80) as R1
    by (rewrite Q1; symmetry; apply (N.mod_unique _ _ (s0 - 0xF0)); lia).
  assert ((c / 64) mod 64 = s2 - 0x80) as R2
    by (rewrite Q2; symmetry;
        apply (N.mod_unique _ _ ((s0 - 0xF0) * 64 + (s1 - 0x80))); lia).
  assert (c mod 64 = s3 - 0x80) as R3
    by (subst c; symmetry;
        apply (N.mod_unique _ _ ((s0 - 0xF0) * 4096 + (s1 - 0x80) * 64 + (s2 - 0x80))); lia).
  destruct (N.leb_spec c 0x7F); [lia|].
  destruct (N.leb_spec c 0x7FF); [lia|].
  rewrite if_surrogate by lia.
  destruct (N.leb_spec c 0xFFFF); [lia|].
  bits. rewrite Q0, R1, R2, R3.
  rewrite (lor_add 3 0xF0), !(lor_add 6 0x80)
    by (reflexivity || (change (2 ^ 6) with 64; change (2 ^ 3) with 8; lia)).
  f_equal; [f_equal; lia | f_equal; [f_equal; lia |
     f_equal; [f_equal; lia | f_equal; f_equal; lia]]].
Qed.

(** ** Decoding and encoding one rune *)

Lemma chr_byte c : chr (byte c) = c.
Proof. apply ascii_N_embedding. Qed.

Lemma byte_lt_256 c : byte c < 256.
Proof. apply N_ascii_bounded. Qed.

Lemma range_test lo hi b : lo <= b -> b <= hi -> (b <? lo) || (hi <? b) = false.
Proof.
  intros. destruct (N.ltb_spec b lo); [lia|]. destruct (N.ltb_spec hi b); [lia|]. reflexivity.
Qed.

Lemma decode_rune c bs :
  Rune c bs -> forall t, utf8.DecodeRuneInString (bs +:+ t) = (c, String.length bs).
Proof.
  intros R t. destruct R; simpl;
    repeat match goal with
           | H : utf8.first _ = _ |- _ => rewrite H; clear H
           | H : utf8.cont _ = true |- _ => rewrite H; clear H
           end; rewrite ?range_test by assumption; reflexivity.
Qed.

Lemma first_inv b sz lo hi :
  utf8.first b = utf8.Multi sz lo hi ->
  (sz = 2%nat /\ 0xC2 <= b /\ b <= 0xDF /\ lo = 0x80 /\ hi = 0xBF) \/
  (sz = 3%nat /\ 0xE0 <= b /\ b <= 0xEF /\ 0x80 <= lo /\ hi <= 0xBF /\
     (b = 0xE0 -> lo = 0xA0) /\ (b = 0xED -> hi = 0x9F)) \/
  (sz = 4%nat /\ 0xF0 <= b /\ b <= 0xF4 /\ 0x80 <= lo /\ hi <= 0xBF /\
     (b = 0xF0 -> lo = 0x90) /\ (b = 0xF4 -> hi = 0x8F)).
Proof.
  unfold utf8.first.
  repeat match goal with
         | |- context [?x <? ?y] => destruct (N.ltb_spec x y)
         | |- context [?x =? ?y] => destruct (N.eqb_spec x y)
         end; intros E; inversion E; subst; lia.
Qed.

Lemma first_single b : utf8.first b = utf8.Single -> b < 0x80.
Proof.
  unfold utf8.first.
  repeat match goal with
         | |- context [?x <? ?y] => destruct (N.ltb_spec x y)
         | |- context [?x =? ?y] => destruct (N.eqb_spec x y)
         end; intros E; inversion E; subst; lia.
Qed.

Lemma cont_inv b : utf8.cont b = true -> 0x80 <= b /\ b <= 0xBF.
Proof.
  unfold utf8.cont. destruct (N.leb_spec 0x80 b); destruct (N.leb_spec b 0xBF);
    simpl; intros; try discriminate; lia.
Qed.

Lemma rune_encode c bs : Rune c bs -> utf8.EncodeRune c = bs.
Proof.
  intros R. destruct R as [c0 F|c0 c1 lo hi F|c0 c1 c2 lo hi F ? ? C2|c0 c1 c2 c3 lo hi F ? ? C2 C3].
  - apply first_single in F. unfold utf8.EncodeRune.
    destruct (N.leb_spec (byte c0) 0x7F); [|lia]. rewrite chr_byte. reflexivity.
  - apply first_inv in F. destruct F as [F|[F|F]]; [|lia|lia].
    rewrite rune2_value by lia. rewrite encode2 by lia. rewrite !chr_byte. reflexivity.
  - apply first_inv in F. apply cont_inv in C2. destruct F as [F|[F|F]]; [lia| |lia].
    rewrite rune3_value by lia. rewrite encode3 by lia. rewrite !chr_byte. reflexivity.
  - apply first_inv in F. apply cont_inv in C2. apply cont_inv in C3.
    destruct F as [F|[F|F]]; [lia|lia|].
    rewrite rune4_value by lia. rewrite encode4 by lia. rewrite !chr_byte. reflexivity.
Qed.

Lemma rune_not_error c bs : Rune c bs -> utf8.is_error (c, bs) = false.
Proof.
  intros R. destruct R as [c0 F| | |]; unfold utf8.is_error; simpl;
    rewrite ?andb_false_r; try reflexivity.
  apply first_single in F. unfold utf8.RuneError.
  destruct (N.eqb_spec (byte c0) 0xFFFD); [lia|reflexivity].
Qed.

Lemma rune_length c bs : Rune c bs -> (1 <= String.length bs)%nat.
Proof. intros R; destruct R; simpl; lia. Qed.

(** What [DecodeRuneInString] gives at the head of a string that is not empty. *)
Lemma decode_inv c0 t0 :
  let s := String c0 t0 in
  let '(c, n) := utf8.DecodeRuneInString s in
  (1 <= n)%nat /\ (n <= String.length s)%nat /\
  ((c = utf8.RuneError /\ n = 1%nat) \/ Rune c (stake n s)).
Proof.
  simpl. destruct (utf8.first (byte c0)) as [| |sz lo hi] eqn:F.
  - split; [lia|split; [lia|right]]. simpl. constructor. assumption.
  - split; [lia|split; [lia|left]]; auto.
  - pose proof (first_inv _ _ _ _ F) as I.
    destruct t0 as [|c1 t1]; [split; [lia|split; [simpl; lia|left]]; auto|].
    destruct (N.ltb_spec (byte c1) lo); simpl;
      [split; [lia|split; [simpl; lia|left]]; auto|].
    destruct (N.ltb_spec hi (byte c1)); simpl;
      [split; [lia|split; [simpl; lia|left]]; auto|].
    destruct I as [I|[I|I]]; destruct I as [-> I]; simpl.
    + split; [lia|split; [lia|right]]. econstructor; eauto.
    + destruct t1 as [|c2 t2]; [split; [lia|split; [simpl; lia|left]]; auto|].
      destruct (utf8.cont (byte c2)) eqn:C2; simpl;
        [|split; [lia|split; [simpl; lia|left]]; auto].
      split; [lia|split; [lia|right]]. econstructor; eauto.
    + destruct t1 as [|c2 t2]; [split; [lia|split; [simpl; lia|left]]; auto|].
      destruct (utf8.cont (byte c2)) eqn:C2; simpl;
        [|split; [lia|split; [simpl; lia|left]]; auto].
      destruct t2 as [|c3 t3]; [split; [lia|split; [simpl; lia|left]]; auto|].
      destruct (utf8.cont (byte c3)) eqn:C3; simpl;
        [|split; [lia|split; [simpl; lia|left]]; auto].
      split; [lia|split; [lia|right]]. econstructor; eauto.
Qed.

(** ** Strings *)

Lemma sapp_assoc (a b c : string) : (a +:+ b) +:+ c = a +:+ (b +:+ c).
Proof. induction a; simpl; congruence. Qed.

Lemma sapp_nil_r (a : string) : a +:+ "" = a.
Proof. induction a; simpl; congruence. Qed.

Lemma length_sapp (a b : string) :
  String.length (a +:+ b) = (String.length a + String.length b)%nat.
Proof. induction a; simpl; congruence. Qed.

Lemma stake_app (a b : string) : stake (String.length a) (a +:+ b) = a.
Proof. induction a; simpl; [destruct b; reflexivity | congruence]. Qed.

Lemma sdrop_app (a b : string) : sdrop (String.length a) (a +:+ b) = b.
Proof. induction a; simpl; [destruct b; reflexivity | assumption]. Qed.

Lemma stake_sdrop (n : nat) (s : string) : stake n s +:+ sdrop n s = s.
Proof. revert s; induction n; intros [|c t]; simpl; try reflexivity. rewrite IHn. reflexivity. Qed.

Lemma length_sdrop (n : nat) (s : string) :
  String.length (sdrop n s) = (String.length s - n)%nat.
Proof. revert s; induction n; intros [|c t]; simpl; auto. Qed.

(** ** The runes of a string *)

Lemma runes_from_sdrop (k : nat) (s : string) :
  utf8.runes_from k s = utf8.runes (sdrop k s).
Proof.
  revert k; induction s as [|c t IH]; intros [|k]; simpl; try reflexivity. apply IH.
Qed.

Lemma runes_cons (c0 : ascii) (t0 : string) :
  utf8.runes (String c0 t0) =
  (let '(c, n) := utf8.DecodeRuneInString (String c0 t0) in
   (c, stake n (String c0 t0)) :: utf8.runes (sdrop n (String c0 t0))).
Proof.
  unfold utf8.runes at 1. cbn [utf8.runes_from].
  pose proof (decode_inv c0 t0) as D. cbv zeta in D.
  destruct (utf8.DecodeRuneInString (String c0 t0)) as [c n].
  destruct D as [Hn _]. destruct n as [|n]; [lia|].
  rewrite runes_from_sdrop. simpl. rewrite Nat.sub_0_r. reflexivity.
Qed.

Lemma runes_rune (c : N) (bs t : string) :
  Rune c bs -> utf8.runes (bs +:+ t) = (c, bs) :: utf8.runes t.
Proof.
  intros R. pose proof (rune_length _ _ R) as L.
  destruct bs as [|c0 t0]; [simpl in L; lia|].
  change (String c0 t0 +:+ t) with (String c0 (t0 +:+ t)). rewrite runes_cons.
  change (String c0 (t0 +:+ t)) with (String c0 t0 +:+ t).
  rewrite (decode_rune _ _ R). rewrite stake_app, sdrop_app. reflexivity.
Qed.

(** Every rune of a string is well formed or stands for an invalid byte,
    and the runes together are the string. *)
Lemma runes_spec (n : nat) : forall s, (String.length s <= n)%nat ->
  sconcat (map snd (utf8.runes s)) = s /\
  Forall (fun r => utf8.is_error r = true \/ Rune r.1 r.2) (utf8.runes s).
Proof.
  induction n as [|n IH]; intros [|c0 t0] L; simpl in L; try lia;
    try (split; [reflexivity | constructor]).
  rewrite runes_cons. pose proof (decode_inv c0 t0) as D. cbv zeta in D.
  destruct (utf8.DecodeRuneInString (String c0 t0)) as [c k].
  destruct D as (K1 & K2 & D).
  destruct (IH (sdrop k (String c0 t0))) as [E F].
  { rewrite length_sdrop. simpl in *. lia. }
  split.
  - cbn [map snd sconcat]. rewrite E. apply stake_sdrop.
  - constructor; [|exact F]. destruct D as [[-> ->]|R]; [left|right; exact R].
    reflexivity.
Qed.

Lemma sconcat_runes (s : string) : sconcat (map snd (utf8.runes s)) = s.
Proof. apply (runes_spec (String.length s)). lia. Qed.

Lemma valid_runes (s : string) :
  utf8.ValidString s = true -> Forall (fun r => Rune r.1 r.2) (utf8.runes s).
Proof.
  unfold utf8.ValidString. intros V.
  pose proof (proj2 (runes_spec (String.length s) s (le_n _))) as F.
  induction F as [|r l [E|R] F IH]; simpl in V; [constructor| |].
  - rewrite E in V. discriminate.
  - apply andb_prop in V. constructor; [exact R | apply IH, V].
Qed.

(** ** String literals *)

Lemma unquote_skip (x t : string) :
  decode.unquote_from (String.length x) (x +:+ t) = decode.unquote_from 0 t.
Proof.
  induction x as [|a x IH]; simpl; [destruct t; reflexivity | exact IH].
Qed.

Lemma unquote_raw (c0 : ascii) (t : string) :
  0x80 <= byte c0 ->
  decode.unquote_from 0 (String c0 t) =
  (let '(rr, size) := utf8.DecodeRuneInString (String c0 t) in
   decode.prepend (utf8.EncodeRune rr) (decode.unquote_from (size - 1) t)).
Proof.
  intros H. cbn [decode.unquote_from].
  destruct (N.eqb_spec (byte c0) 34); [lia|].
  destruct (N.eqb_spec (byte c0) 92); [lia|].
  destruct (N.ltb_spec (byte c0) 0x20); [lia|].
  unfold utf8.RuneSelf. destruct (N.ltb_spec (byte c0) 0x80); [lia|]. reflexivity.
Qed.

(** An ASCII byte is read back from what [appendString] writes for it. *)
Lemma unquote_ascii (c0 : ascii) (t : string) :
  byte c0 < 0x80 ->
  decode.unquote_from 0 (json.appendRune (byte c0, String c0 "") +:+ t) =
  decode.prepend (String c0 "") (decode.unquote_from 0 t).
Proof.
  destruct c0 as [[] [] [] [] [] [] [] []]; intros H;
    try (vm_compute in H; discriminate H); reflexivity.
Qed.

Lemma unquote_multi (c : N) (c0 : ascii) (r t : string) :
  Rune c (String c0 r) -> 0x80 <= byte c0 ->
  decode.unquote_from 0 (json.appendRune (c, String c0 r) +:+ t) =
  decode.prepend (String c0 r) (decode.unquote_from 0 t).
Proof.
  intros R H. pose proof (rune_encode _ _ R) as E. pose proof (rune_not_error _ _ R) as NE.
  unfold json.appendRune. unfold utf8.RuneSelf.
  destruct (N.ltb_spec (byte c0) 0x80); [lia|].
  unfold utf8.is_error in NE. cbn [fst snd] in NE. rewrite NE.
  destruct (N.eqb_spec c 0x2028) as [->|]; [rewrite <- E; reflexivity|].
  destruct (N.eqb_spec c 0x2029) as [->|]; [rewrite <- E; reflexivity|].
  cbn [orb]. change (String c0 r +:+ t) with (String c0 (r +:+ t)).
  rewrite unquote_raw by assumption.
  change (String c0 (r +:+ t)) with (String c0 r +:+ t).
  rewrite (decode_rune _ _ R). rewrite E.
  cbn [String.length]. rewrite Nat.sub_succ, Nat.sub_0_r.
  rewrite unquote_skip. reflexivity.
Qed.

Lemma unquote_rune (c : N) (bs t : string) :
  Rune c bs ->
  decode.unquote_from 0 (json.appendRune (c, bs) +:+ t) =
  decode.prepend bs (decode.unquote_from 0 t).
Proof.
  intros R. inversion R as [c0 F|c0 c1 lo hi F|c0 c1 c2 lo hi F|c0 c1 c2 c3 lo hi F]; subst.
  - apply unquote_ascii. apply first_single. assumption.
  - apply unquote_multi; [assumption|]. apply first_inv in F. lia.
  - apply unquote_multi; [assumption|]. apply first_inv in F. lia.
  - apply unquote_multi; [assumption|]. apply first_inv in F. lia.
Qed.

Lemma prepend_prepend {A} (x y : string) (o : option (string * A)) :
  decode.prepend x (decode.prepend y o) = decode.prepend (x +:+ y) o.
Proof. destruct o as [[a r]|]; simpl; [rewrite sapp_assoc|]; reflexivity. Qed.

Lemma unquote_runes (rs : list (N * string)) (t : string) :
  Forall (fun r => Rune r.1 r.2) rs ->
  decode.unquote_from 0 (sconcat (map json.appendRune rs) +:+ String json.quote t) =
  Some (sconcat (map snd rs), t).
Proof.
  induction 1 as [|[c bs] rs R F IH]; [reflexivity|].
  cbn [map sconcat snd]. rewrite sapp_assoc. rewrite unquote_rune by exact R.
  rewrite IH. reflexivity.
Qed.

(** A valid string is read back from its literal. *)
Lemma stringLit_appendString (s t : string) :
  utf8.ValidString s = true ->
  decode.stringLit (json.appendString s +:+ t) = Some (s, t).
Proof.
  intros V. unfold json.appendString. cbn [String.append decode.stringLit].
  replace (byte json.quote =? 34) with true by reflexivity.
  rewrite sapp_assoc. cbn [String.append].
  rewrite unquote_runes by (apply valid_runes; exact V).
  rewrite sconcat_runes. reflexivity.
Qed.

Lemma length_appendString (s : string) : (2 <= String.length (json.appendString s))%nat.
Proof. unfold json.appendString. simpl. rewrite length_sapp. simpl. lia. Qed.

(** ** Values *)

Lemma sapp_1 (c : ascii) (x : string) : String c "" +:+ x = String c x.
Proof. reflexivity. Qed.

Lemma appendString_head (s t : string) :
  exists r, json.appendString s +:+ t = String json.quote r.
Proof. unfold json.appendString. simpl. eauto. Qed.

Lemma stringValue_appendString (old s t : string) :
  utf8.ValidString s = true ->
  decode.stringValue old (json.appendString s +:+ t) = Some (s, t).
Proof.
  intros V. unfold decode.stringValue.
  destruct (appendString_head s t) as [r E].
  replace (decode.nullLit (json.appendString s +:+ t)) with (@None string)
    by (rewrite E; reflexivity).
  apply stringLit_appendString, V.
Qed.

Lemma skipSpace_appendString (s t : string) :
  decode.skipSpace (json.appendString s +:+ t) = json.appendString s +:+ t.
Proof. destruct (appendString_head s t) as [r E]. rewrite E. reflexivity. Qed.

Lemma elements_join (l : list string) : forall (t : string) (fuel : nat),
  l <> [] -> Forall (fun s => utf8.ValidString s = true) l ->
  (String.length (json.join "," (map json.appendString l) +:+ String "]" t) <= fuel)%nat ->
  decode.elements fuel (json.join "," (map json.appendString l) +:+ String "]" t) =
  Some (l, t).
Proof.
  induction l as [|x [|y r] IH]; intros t fuel NE V L; [congruence| |].
  - inversion V as [|? ? Vx _]; subst. cbn [map json.join] in *.
    pose proof (length_appendString x). rewrite length_sapp in L.
    destruct fuel as [|f]; [lia|]. cbn [decode.elements].
    rewrite skipSpace_appendString, stringValue_appendString by assumption.
    reflexivity.
  - inversion V as [|? ? Vx V']; subst.
    change (json.join "," (map json.appendString (x :: y :: r)))
      with (json.appendString x +:+ "," +:+ json.join "," (map json.appendString (y :: r))) in *.
    pose proof (length_appendString x).
    rewrite !sapp_assoc in *. rewrite length_sapp in L.
    destruct fuel as [|f]; [lia|]. cbn [decode.elements].
    rewrite skipSpace_appendString, stringValue_appendString by assumption.
    simpl String.append. cbn [decode.skipSpace]. 
    replace (decode.isSpace (byte ",")) with false by reflexivity.
    replace (byte "," =? 44) with true by reflexivity.
    rewrite IH; [reflexivity|congruence|assumption|].
    cbn [String.append String.length] in L. lia.
Qed.

Lemma values_encodeValues (v : Values) (t : string) (fuel : nat) :
  validValues v = true ->
  (String.length (json.encodeValues v +:+ t) <= fuel)%nat ->
  decode.values fuel (json.encodeValues v +:+ t) = Some (v, t).
Proof.
  intros V L. destruct v as [[|x l]|]; [reflexivity| |reflexivity].
  unfold json.encodeValues in *. rewrite !sapp_assoc, !sapp_1 in *.
  unfold decode.values. cbn [decode.nullLit].
  replace (byte "[" =? 91) with true by reflexivity.
  assert (exists r, json.join "," (map json.appendString (x :: l)) +:+ String "]" t
                    = String json.quote r) as [r E].
  { destruct l; cbn [map json.join]; [|rewrite sapp_assoc]; apply appendString_head. }
  rewrite E. cbn [decode.skipSpace].
  replace (decode.isSpace (byte json.quote)) with false by reflexivity.
  replace (byte json.quote =? 93) with false by reflexivity.
  rewrite <- E. clear E.
  rewrite elements_join; [reflexivity|congruence| |cbn [String.length] in L; lia].
  apply Forall_forall. intros s Hs.
  apply (proj1 (List.forallb_forall _ _) V). apply list_elem_of_In. exact Hs.
Qed.

Lemma skipSpace_encodeValues (v : Values) (t : string) :
  decode.skipSpace (json.encodeValues v +:+ t) = json.encodeValues v +:+ t.
Proof.
  destruct v as [l|]; [|reflexivity]. unfold json.encodeValues.
  rewrite sapp_assoc. reflexivity.
Qed.

(** Decides the tests the decoder makes on a byte that is written out. *)
Ltac punct :=
  cbn [decode.skipSpace];
  repeat match goal with
         | |- context [decode.isSpace (byte (Ascii ?a ?b ?c ?d ?e ?f ?g ?h))] =>
           let v := eval vm_compute in (decode.isSpace (byte (Ascii a b c d e f g h))) in
           change (decode.isSpace (byte (Ascii a b c d e f g h))) with v; cbv iota
         | |- context [byte (Ascii ?a ?b ?c ?d ?e ?f ?g ?h) =? ?n] =>
           let v := eval vm_compute in (byte (Ascii a b c d e f g h) =? n) in
           change (byte (Ascii a b c d e f g h) =? n) with v; cbv iota
         | |- context [decode.isSpace (byte json.quote)] =>
           change (decode.isSpace (byte json.quote)) with false; cbv iota
         | |- context [byte json.quote =? ?n] =>
           let v := eval vm_compute in (byte json.quote =? n) in
           change (byte json.quote =? n) with v; cbv iota
         end.

Ltac lengths :=
  repeat (progress (rewrite ?length_sapp in *; cbn [String.length] in *)); lia.

(** ** The header map *)

Lemma encodeMember_head (kv : string * Values) (t : string) :
  exists r, json.encodeMember kv +:+ t = String json.quote r.
Proof. unfold json.encodeMember. rewrite sapp_assoc. apply appendString_head. Qed.

Lemma join_members_head (l : list (string * Values)) (t : string) :
  l <> [] -> exists r, json.join "," (map json.encodeMember l) +:+ t = String json.quote r.
Proof.
  destruct l as [|kv [|kv' l]]; intros NE; [congruence| |]; cbn [map json.join].
  - apply encodeMember_head.
  - rewrite sapp_assoc. apply encodeMember_head.
Qed.

Lemma members_join (l : list (string * Values)) :
  forall (m0 : gmap string Values) (t : string) (fuel : nat),
  l <> [] ->
  Forall (fun kv => utf8.ValidString kv.1 = true /\ validValues kv.2 = true) l ->
  (String.length (json.join "," (map json.encodeMember l) +:+ String "}" t) <= fuel)%nat ->
  decode.members fuel (json.join "," (map json.encodeMember l) +:+ String "}" t) m0 =
  Some (foldl (fun m kv => <[kv.1 := kv.2]> m) m0 l, t).
Proof.
  induction l as [|[k v] [|kv' r] IH]; intros m0 t fuel NE V L; [congruence| |].
  - inversion V as [|? ? [Vk Vv] _]; subst. cbn [map json.join fst snd] in *.
    unfold json.encodeMember in *. cbn [fst snd] in *.
    rewrite !sapp_assoc, !sapp_1 in *.
    pose proof (length_appendString k).
    destruct fuel as [|f]; [lengths|]. cbn [decode.members].
    rewrite skipSpace_appendString, stringLit_appendString by assumption.
    punct. rewrite skipSpace_encodeValues, values_encodeValues by (assumption || lengths).
    punct. reflexivity.
  - inversion V as [|? ? [Vk Vv] V']; subst.
    change (json.join "," (map json.encodeMember ((k, v) :: kv' :: r)))
      with (json.encodeMember (k, v) +:+ "," +:+ json.join "," (map json.encodeMember (kv' :: r))) in *.
    unfold json.encodeMember at 1. unfold json.encodeMember at 1 in L. cbn [fst snd] in *.
    rewrite !sapp_assoc, !sapp_1 in *.
    pose proof (length_appendString k).
    destruct fuel as [|f]; [lengths|]. cbn [decode.members].
    rewrite skipSpace_appendString, stringLit_appendString by assumption.
    punct. rewrite skipSpace_encodeValues, values_encodeValues by (assumption || lengths).
    punct. rewrite IH; [reflexivity|congruence|assumption|lengths].
Qed.

Lemma foldl_insert (l : list (string * Values)) : forall (m0 : gmap string Values),
  NoDup l.*1 ->
  foldl (fun m kv => <[kv.1 := kv.2]> m) m0 l = list_to_map l ∪ m0.
Proof.
  induction l as [|[k v] l IH]; intros m0 ND; simpl.
  - rewrite (left_id_L ∅ (∪)). reflexivity.
  - inversion ND as [|? ? Hk ND']; subst. rewrite IH by assumption.
    rewrite <- insert_union_l. rewrite <- insert_union_r; [reflexivity|].
    apply not_elem_of_list_to_map_1. exact Hk.
Qed.

Lemma sortedEntries_perm {V} (m : gmap string V) : json.sortedEntries m ≡ₚ map_to_list m.
Proof. apply merge_sort_Permutation. Qed.

Lemma list_to_map_sortedEntries (m : gmap string Values) :
  foldl (fun m kv => <[kv.1 := kv.2]> m) ∅ (json.sortedEntries m) = m.
Proof.
  rewrite foldl_insert.
  - rewrite (right_id_L ∅ (∪)).
    rewrite (list_to_map_proper _ (map_to_list m)).
    + apply list_to_map_to_list.
    + rewrite sortedEntries_perm. apply NoDup_fst_map_to_list.
    + apply sortedEntries_perm.
  - rewrite sortedEntries_perm. apply NoDup_fst_map_to_list.
Qed.

Lemma header_encodeHeader (h : Header) (t : string) (fuel : nat) :
  validHeader h = true ->
  (String.length (json.encodeHeader h +:+ t) <= fuel)%nat ->
  decode.header fuel None (json.encodeHeader h +:+ t) = Some (h, t).
Proof.
  intros V L. destruct h as [m|]; [|reflexivity].
  unfold json.encodeHeader in *. rewrite !sapp_assoc, !sapp_1 in *.
  unfold decode.header. cbn [decode.nullLit]. punct.
  destruct (json.sortedEntries m) as [|kv l] eqn:E.
  - cbn [map json.join String.append]. punct. cbn [default].
    assert (m = ∅) as ->; [|reflexivity].
    apply map_to_list_empty_iff. apply Permutation_nil_r.
    rewrite <- E. symmetry. apply sortedEntries_perm.
  - destruct (join_members_head (kv :: l) (String "}" t)) as [r Er]; [congruence|].
    rewrite Er. punct. rewrite <- Er. clear Er.
    rewrite members_join; [|congruence| |cbn [String.length] in L; lia].
    + rewrite <- E, list_to_map_sortedEntries. reflexivity.
    + rewrite <- E. apply Forall_forall. intros x Hx.
      rewrite sortedEntries_perm in Hx. apply list_elem_of_In in Hx.
      simpl in V. rewrite List.forallb_forall in V. specialize (V x Hx).
      apply andb_prop in V. exact V.
Qed.

Lemma skipSpace_encodeHeader (h : Header) (t : string) :
  decode.skipSpace (json.encodeHeader h +:+ t) = json.encodeHeader h +:+ t.
Proof.
  destruct h as [m|]; [|reflexivity]. unfold json.encodeHeader.
  rewrite sapp_assoc. reflexivity.
Qed.

(** ** The payload *)

Lemma field_method f p s :
  decode.field f "method" p s =
  match decode.stringValue (Method p) s with
  | Some (v, r) => Some (mkPayload v (URI p) (Headers p) (Body p), r)
  | None => None
  end.
Proof. reflexivity. Qed.

Lemma field_uri f p s :
  decode.field f "uri" p s =
  match decode.stringValue (URI p) s with
  | Some (v, r) => Some (mkPayload (Method p) v (Headers p) (Body p), r)
  | None => None
  end.
Proof. reflexivity. Qed.

Lemma field_headers f p s :
  decode.field f "headers" p s =
  match decode.header f (Headers p) s with
  | Some (v, r) => Some (mkPayload (Method p) (URI p) v (Body p), r)
  | None => None
  end.
Proof. reflexivity. Qed.

Lemma field_body f p s :
  decode.field f "body" p s =
  match decode.stringValue (Body p) s with
  | Some (v, r) => Some (mkPayload (Method p) (URI p) (Headers p) v, r)
  | None => None
  end.
Proof. reflexivity. Qed.

Lemma Marshal_text (p : RequestPayload) :
  (json.Marshal p).1 = String "{" (membersText p "").
Proof.
  unfold json.Marshal, membersText. cbn [fst]. rewrite ?sapp_assoc, !sapp_1. reflexivity.
Qed.

Lemma fields_membersText (p : RequestPayload) (t : string) (fuel : nat) :
  ValidPayload p = true ->
  (String.length (membersText p t) <= fuel)%nat ->
  decode.fields fuel (membersText p t) zeroPayload = Some (p, t).
Proof.
  destruct p as [M U H B]. unfold ValidPayload, membersText. cbn [Method URI Headers Body].
  intros V L. apply andb_prop in V as [V VB]. apply andb_prop in V as [V VH].
  apply andb_prop in V as [VM VU].
  pose proof (length_appendString "method"). pose proof (length_appendString "uri").
  pose proof (length_appendString "headers"). pose proof (length_appendString "body").
  pose proof (length_appendString M). pose proof (length_appendString U).
  pose proof (length_appendString B).
  destruct fuel as [|f1]; [lengths|]. cbn [decode.fields].
  rewrite skipSpace_appendString, stringLit_appendString by reflexivity.
  punct. rewrite skipSpace_appendString, field_method, stringValue_appendString by assumption.
  punct. destruct f1 as [|f2]; [lengths|]. cbn [decode.fields].
  rewrite skipSpace_appendString, stringLit_appendString by reflexivity.
  punct. rewrite skipSpace_appendString, field_uri, stringValue_appendString by assumption.
  punct. destruct f2 as [|f3]; [lengths|]. cbn [decode.fields].
  rewrite skipSpace_appendString, stringLit_appendString by reflexivity.
  punct. rewrite skipSpace_encodeHeader, field_headers. cbn [Headers zeroPayload].
  rewrite header_encodeHeader by (assumption || lengths).
  punct. destruct f3 as [|f4]; [lengths|]. cbn [decode.fields].
  rewrite skipSpace_appendString, stringLit_appendString by reflexivity.
  punct. rewrite skipSpace_appendString, field_body, stringValue_appendString by assumption.
  punct. reflexivity.
Qed.

(** C1.  For every envelope that is text, that is whose strings are all
    valid UTF-8 (method, uri, every header name and value, body), decoding
    the text [json.Marshal] writes gives the envelope back: method, uri,
    the header map with the values of each name in their order, nil maps
    and slices, and the body. *)
Theorem round_trip_valid_utf8 (e : RequestPayload) :
  ValidPayload e = true ->
  decode.Unmarshal (json.Marshal e).1 = Some e.
Proof.
  intros V. rewrite Marshal_text. unfold decode.Unmarshal. punct.
  destruct (appendString_head "method"
              (String ":" (json.appendString (Method e) +:+ String ","
  (json.appendString "uri" +:+ String ":" (json.appendString (URI e) +:+ String ","
  (json.appendString "headers" +:+ String ":" (json.encodeHeader (Headers e) +:+ String ","
  (json.appendString "body" +:+ String ":" (json.appendString (Body e) +:+ String "}" "")))))))))
    as [r E].
  fold (membersText e "") in E. rewrite E. punct. rewrite <- E.
  rewrite fields_membersText; [reflexivity|assumption|].
  cbn [String.length]. lia.
Qed.


(** ** The handlers *)

Lemma body_read_failed :
  json.MarshalH {[ "error" := "Failed to read request body" ]} =
  object1 "error" "Failed to read request body".
Proof. vm_compute. reflexivity. Qed.

Lemma body_push_failed :
  json.MarshalH {[ "error" := "Failed to push to Redis queue" ]} =
  object1 "error" "Failed to push to Redis queue".
Proof. vm_compute. reflexivity. Qed.

Lemma body_added :
  json.MarshalH {[ "message" := "Request added to Redis queue" ]} =
  object1 "message" "Request added to Redis queue".
Proof. vm_compute. reflexivity. Qed.

Lemma enqueues_snoc l c :
  length (List.filter isEnqueue (l ++ [c])) =
  (length (List.filter isEnqueue l) + (if isEnqueue c then 1 else 0))%nat.
Proof.
  rewrite List.filter_app, length_app. simpl.
  destruct (isEnqueue c); reflexivity.
Qed.

(** ** The printer *)

Lemma printHeaders_run (l : list (string * Values)) : forall w : World,
  Printer.printHeaders l w =
  (tt, set_stdout
         (stdout w ++
          map (fun kv : string * Values =>
                 kv.1 +:+ ": " +:+ Printer.showValues kv.2 +:+ Printer.newline) l) w).
Proof.
  induction l as [|[k v] l IH]; intros w.
  - cbn [Printer.printHeaders map]. unfold ret, set_stdout. rewrite app_nil_r.
    destruct w; reflexivity.
  - cbn [Printer.printHeaders map]. unfold bind, fmt.Print. rewrite IH.
    unfold set_stdout; cbn. rewrite <- app_assoc. reflexivity.
Qed.

(** The printer answers 200 whatever happens, also when the read fails, and
    reads the body of POST and PUT requests only. *)
Lemma printer_run (range : gmap string Values -> list (string * Values)) (w : World) :
  written (Printer.handler range w).2 =
    written w ++
      [mkResponse 200 (object1 "message" "Request received and printed to console")] /\
  request (Printer.handler range w).2 =
    (if String.eqb (http.Method (request w)) "POST"
        || String.eqb (http.Method (request w)) "PUT"
     then request (io.ReadAll w).2
     else request w).
Proof.
  unfold Printer.handler, bind, ret, fmt.Print. cbn [fst snd].
  rewrite printHeaders_run.
  unfold http.MethodPost, http.MethodPut.
  destruct (String.eqb (http.Method (request w)) "POST"
            || String.eqb (http.Method (request w)) "PUT").
  - unfold io.ReadAll, bind, ret, fmt.Print, gin.JSON. cbn.
    destruct (failure (http.Body (request w))); split; reflexivity.
  - split; reflexivity.
Qed.

(** Runs a handler symbolically and splits on the stage the request reaches. *)
Ltac run_handler :=
  unfold Redis.handleRequest, Redis.parseRequest, Redis.pushToRedis,
    Kafka.handleRequest, Kafka.parseRequest, Kafka.produce, io.ReadAll,
    redis.LPush, kgo.ProduceSync, gin.JSON, slog.Error, slog.Info, slog.log,
    bind, ret, stageOf, redisErr, kafkaErr, redis.reach, captured, enqueues;
  rewrite ?body_read_failed, ?body_push_failed, ?body_added; simpl.

Ltac stage_cases w Marshal :=
  destruct (failure (http.Body (request w))) as [?e|]; simpl;
  [ | destruct (Marshal _) as [?data [?e|]]; simpl;
      [ | repeat match goal with
                 | |- context [match ?m !! ?k with _ => _ end] =>
                     destruct (m !! k) as [?b|]; simpl
                 | |- context [match kgo.dial ?s ?n with _ => _ end] =>
                     destruct (kgo.dial s n) as [[?a ?b]|]; simpl
                 | |- context [match fault ?b with _ => _ end] =>
                     destruct (fault b) as [?e|]; simpl
                 end ] ].

Section Bridge.
Variable Marshal : RequestPayload -> string * option error.
Variable rdb : redis.Client.
Variable kc : kgo.Client.

(** C2.  One run of the handler invokes the enqueue primitive once when
    capture and serialization succeed and not at all when one of them
    fails; a failed attempt is not made again and stores nothing. *)
Theorem at_most_one_enqueue (w : World) :
  (enqueues (redisRun Marshal rdb w) =
     (enqueues w + match stageOf Marshal (redisErr rdb w) w with
                   | CaptureFailed _ | SerializeFailed _ => 0
                   | EnqueueFailed _ | Enqueued _ => 1
                   end)%nat
   /\ match stageOf Marshal (redisErr rdb w) w with
      | Enqueued _ => True
      | _ => net (redisRun Marshal rdb w) = net w
      end)
  /\
  (enqueues (kafkaRun Marshal kc w) =
     (enqueues w + match stageOf Marshal (kafkaErr kc w) w with
                   | CaptureFailed _ | SerializeFailed _ => 0
                   | EnqueueFailed _ | Enqueued _ => 1
                   end)%nat
   /\ match stageOf Marshal (kafkaErr kc w) w with
      | Enqueued _ => True
      | _ => net (kafkaRun Marshal kc w) = net w
      end).
Proof.
  unfold redisRun, kafkaRun. split; run_handler; stage_cases w Marshal;
    rewrite ?enqueues_snoc; simpl; split; auto; lia.
Qed.


(** C3, as amended.  In the two producers the status written is 500 when
    capture, serialization or the enqueue fails and 200 when all succeed,
    whatever the method, the path and the body, and the response of a
    success is the fixed confirmation.  The printer has no serialization
    and no enqueue and answers 200 with its own confirmation to every
    request, also when the body cannot be read. *)
Theorem status_code_mapping
    (range : gmap string Values -> list (string * Values)) (w : World) :
  (map Status (written (redisRun Marshal rdb w)) =
     map Status (written w) ++
       [match stageOf Marshal (redisErr rdb w) w with
        | Enqueued _ => 200%nat
        | CaptureFailed _ | SerializeFailed _ | EnqueueFailed _ => 500%nat
        end]
   /\ match stageOf Marshal (redisErr rdb w) w with
      | Enqueued _ =>
        last (written (redisRun Marshal rdb w)) =
          Some (mkResponse 200 (object1 "message" "Request added to Redis queue"))
      | _ => True
      end)
  /\
  (map Status (written (kafkaRun Marshal kc w)) =
     map Status (written w) ++
       [match stageOf Marshal (kafkaErr kc w) w with
        | Enqueued _ => 200%nat
        | CaptureFailed _ | SerializeFailed _ | EnqueueFailed _ => 500%nat
        end]
   /\ match stageOf Marshal (kafkaErr kc w) w with
      | Enqueued _ =>
        last (written (kafkaRun Marshal kc w)) =
          Some (mkResponse 200 (object1 "message" "Request added to Redis queue"))
      | _ => True
      end)
  /\
  written (Printer.handler range w).2 =
    written w ++
      [mkResponse 200 (object1 "message" "Request received and printed to console")].
Proof.
  unfold redisRun, kafkaRun. split; [|split; [|apply printer_run]];
    run_handler; stage_cases w Marshal;
    rewrite ?map_app, ?last_snoc; simpl; split; auto.
Qed.

(** C10.  Every run of the handler writes exactly one response, the 500
    error of the stage that failed or the 200 confirmation, and one log
    record, an error record unless the request was enqueued; after a
    capture failure nothing is sent to the backend. *)
Theorem exactly_one_response (w : World) :
  (written (redisRun Marshal rdb w) =
     written w ++ [responseOf (stageOf Marshal (redisErr rdb w) w)] /\
   (exists l, logged (redisRun Marshal rdb w) = logged w ++ [l] /\
      level l = match stageOf Marshal (redisErr rdb w) w with
                | Enqueued _ => LevelInfo
                | _ => LevelError
                end) /\
   match stageOf Marshal (redisErr rdb w) w with
   | CaptureFailed _ =>
     calls (redisRun Marshal rdb w) = calls w /\ net (redisRun Marshal rdb w) = net w
   | _ => True
   end)
  /\
  (written (kafkaRun Marshal kc w) =
     written w ++ [responseOf (stageOf Marshal (kafkaErr kc w) w)] /\
   (exists l, logged (kafkaRun Marshal kc w) = logged w ++ [l] /\
      level l = match stageOf Marshal (kafkaErr kc w) w with
                | Enqueued _ => LevelInfo
                | _ => LevelError
                end) /\
   match stageOf Marshal (kafkaErr kc w) w with
   | CaptureFailed _ =>
     calls (kafkaRun Marshal kc w) = calls w /\ net (kafkaRun Marshal kc w) = net w
   | _ => True
   end).
Proof.
  unfold redisRun, kafkaRun. split; run_handler; stage_cases w Marshal;
    (split; [reflexivity | split; [eexists; split; reflexivity | auto]]).
Qed.

Lemma redis_written (w : World) :
  written (redisRun Marshal rdb w) = written w ++ [responseOf (stageOf Marshal (redisErr rdb w) w)].
Proof. unfold redisRun. run_handler; stage_cases w Marshal; reflexivity. Qed.

Lemma kafka_written (w : World) :
  written (kafkaRun Marshal kc w) = written w ++ [responseOf (stageOf Marshal (kafkaErr kc w) w)].
Proof. unfold kafkaRun. run_handler; stage_cases w Marshal; reflexivity. Qed.

Lemma dial_broken e seeds (n : gmap string Broker) :
  kgo.dial seeds ((fun b => mkBroker (Some e) (stored b)) <$> n) =
  (fun ab : string * Broker => (ab.1, mkBroker (Some e) (stored ab.2))) <$> kgo.dial seeds n.
Proof.
  induction seeds as [|a r IH]; simpl; [reflexivity|].
  rewrite lookup_fmap. destruct (n !! a); simpl; auto.
Qed.

Lemma broken_redis_response (w : World) (e : error) :
  responseOf (stageOf Marshal (redisErr rdb (broken e w)) (broken e w)) =
  responseOf (stageOf Marshal (Some e) w).
Proof.
  unfold stageOf, redisErr, redis.reach, broken, captured. cbn [net set_net request].
  rewrite lookup_fmap.
  destruct (failure (http.Body (request w))); [reflexivity|].
  destruct (Marshal _) as [d [x|]]; [reflexivity|].
  destruct (net w !! redis.Addr rdb); reflexivity.
Qed.

Lemma broken_kafka_response (w : World) (e : error) :
  responseOf (stageOf Marshal (kafkaErr kc (broken e w)) (broken e w)) =
  responseOf (stageOf Marshal (Some e) w).
Proof.
  unfold stageOf, kafkaErr, broken, captured. cbn [net set_net request].
  rewrite dial_broken.
  destruct (failure (http.Body (request w))); [reflexivity|].
  destruct (Marshal _) as [d [x|]]; [reflexivity|].
  destruct (kgo.dial _ _) as [[a b]|]; reflexivity.
Qed.

Lemma response_ignores_text (w : World) (e1 e2 : error) :
  responseOf (stageOf Marshal (Some e1) w) = responseOf (stageOf Marshal (Some e2) w).
Proof.
  unfold stageOf. destruct (failure _); [reflexivity|].
  destruct (Marshal _) as [d [x|]]; reflexivity.
Qed.

Lemma redis_failure_answered (w : World) :
  failureAnswered (stageOf Marshal (redisErr rdb w) w) w (redisRun Marshal rdb w).
Proof.
  unfold redisRun, failureAnswered. run_handler; stage_cases w Marshal;
    try exact I; split; reflexivity.
Qed.

Lemma kafka_failure_answered (w : World) :
  failureAnswered (stageOf Marshal (kafkaErr kc w) w) w (kafkaRun Marshal kc w).
Proof.
  unfold kafkaRun, failureAnswered. run_handler; stage_cases w Marshal;
    try exact I; split; reflexivity.
Qed.

(** With every backend answering an error, what is written is the message
    of the stage, whatever the error. *)
Lemma broken_response (w : World) (e : error) :
  responseOf (stageOf Marshal (Some e) w) =
  mkResponse 500
    (object1 "error"
       match failure (http.Body (request w)) with
       | Some _ => "Failed to read request body"
       | None => "Failed to push to Redis queue"
       end).
Proof.
  unfold stageOf. destruct (failure _); [reflexivity|].
  destruct (Marshal _) as [d [x|]]; reflexivity.
Qed.

(** C9.  A failure is answered: the run writes one response, status 500,
    whose body is the fixed message of the stage that failed, and the text
    of the error is in the log record, at error level, and nowhere in the
    response.  So two runs that differ only in the text of the read error,
    or only in the text of the error every backend answers with, write the
    same responses, which are written out here. *)
Theorem response_independent_of_error_text
    (w : World) (chunks : list string) (e1 e2 : error) :
  (written (redisRun Marshal rdb (withBody chunks (Some e1) w)) =
     written (redisRun Marshal rdb (withBody chunks (Some e2) w)) /\
   written (redisRun Marshal rdb (broken e1 w)) = written (redisRun Marshal rdb (broken e2 w)) /\
   logged (redisRun Marshal rdb (withBody chunks (Some e1) w)) =
     logged w ++ [mkLog LevelError "Failed to read request body" [("error", Error e1)]] /\
   written (redisRun Marshal rdb (withBody chunks (Some e1) w)) =
     written w ++ [mkResponse 500 (object1 "error" "Failed to read request body")] /\
   written (redisRun Marshal rdb (broken e1 w)) =
     written w ++
       [mkResponse 500
          (object1 "error"
             match failure (http.Body (request w)) with
             | Some _ => "Failed to read request body"
             | None => "Failed to push to Redis queue"
             end)] /\
   failureAnswered (stageOf Marshal (redisErr rdb (broken e1 w)) (broken e1 w))
     w (redisRun Marshal rdb (broken e1 w)) /\
   failureAnswered (stageOf Marshal (redisErr rdb w) w) w (redisRun Marshal rdb w))
  /\
  (written (kafkaRun Marshal kc (withBody chunks (Some e1) w)) =
     written (kafkaRun Marshal kc (withBody chunks (Some e2) w)) /\
   written (kafkaRun Marshal kc (broken e1 w)) = written (kafkaRun Marshal kc (broken e2 w)) /\
   logged (kafkaRun Marshal kc (withBody chunks (Some e1) w)) =
     logged w ++ [mkLog LevelError "Failed to read request body" [("error", Error e1)]] /\
   written (kafkaRun Marshal kc (withBody chunks (Some e1) w)) =
     written w ++ [mkResponse 500 (object1 "error" "Failed to read request body")] /\
   written (kafkaRun Marshal kc (broken e1 w)) =
     written w ++
       [mkResponse 500
          (object1 "error"
             match failure (http.Body (request w)) with
             | Some _ => "Failed to read request body"
             | None => "Failed to push to Redis queue"
             end)] /\
   failureAnswered (stageOf Marshal (kafkaErr kc (broken e1 w)) (broken e1 w))
     w (kafkaRun Marshal kc (broken e1 w)) /\
   failureAnswered (stageOf Marshal (kafkaErr kc w) w) w (kafkaRun Marshal kc w)).
Proof.
  split.
  - split; [reflexivity|]. split.
    { rewrite !redis_written, !broken_redis_response.
      rewrite (response_ignores_text w e1 e2). reflexivity. }
    split; [reflexivity|]. split; [reflexivity|]. split.
    { rewrite redis_written, broken_redis_response, broken_response. reflexivity. }
    split; [apply (redis_failure_answered (broken e1 w)) | apply redis_failure_answered].
  - split; [reflexivity|]. split.
    { rewrite !kafka_written, !broken_kafka_response.
      rewrite (response_ignores_text w e1 e2). reflexivity. }
    split; [reflexivity|]. split; [reflexivity|]. split.
    { rewrite kafka_written, broken_kafka_response, broken_response. reflexivity. }
    split; [apply (kafka_failure_answered (broken e1 w)) | apply kafka_failure_answered].
Qed.

(** C6, as amended.  When the enqueue fails, the response is 500 with the
    body [{"error":"Failed to push to Redis queue"}], the error of the
    backend is logged at error level, and what was handed to the backend
    is the serialization of the whole captured request. *)
Theorem enqueue_failure_response (w : World) (e1 e2 : error) :
  stageOf Marshal (redisErr rdb w) w = EnqueueFailed e1 ->
  stageOf Marshal (kafkaErr kc w) w = EnqueueFailed e2 ->
  (written (redisRun Marshal rdb w) =
     written w ++ [mkResponse 500 (object1 "error" "Failed to push to Redis queue")] /\
   logged (redisRun Marshal rdb w) =
     logged w ++ [mkLog LevelError "Failed to push to Redis queue" [("error", Error e1)]] /\
   calls (redisRun Marshal rdb w) =
     calls w ++ [CallLPush (redis.Addr rdb) "request_queue" (Marshal (captured w)).1])
  /\
  (written (kafkaRun Marshal kc w) =
     written w ++ [mkResponse 500 (object1 "error" "Failed to push to Redis queue")] /\
   logged (kafkaRun Marshal kc w) =
     logged w ++ [mkLog LevelError "Failed to push to Redis queue" [("error", Error e2)]] /\
   calls (kafkaRun Marshal kc w) =
     calls w ++ [CallProduceSync (kgo.seedBrokers kc) "foo" (Marshal (captured w)).1]).
Proof.
  unfold redisRun, kafkaRun. intros H1 H2. split.
  - revert H1. clear H2. run_handler. stage_cases w Marshal; intros H; inversion H; subst; auto.
  - revert H2. clear H1. run_handler. stage_cases w Marshal; intros H; inversion H; subst; auto.
Qed.

End Bridge.

(** ** Capture *)

Ltac run_main :=
  unfold Redis.main, Redis.NewServer, Kafka.main, Kafka.NewServer, redis.Ping, redis.NewClient,
    flag.String, gin.Run, gin.Any, gin.Default, slog.Error, slog.Info, slog.log,
    bind, ret, redisErr; simpl.

Lemma redis_main_outcome (Marshal : RequestPayload -> string * option error) (w : World) :
  let rdb := redis.mkOptions (default "localhost:6379" (flags w !! "redis")) 0 in
  calls (Redis.main Marshal w).2 = calls w ++ [CallPing (redis.Addr rdb)] /\
  (Redis.main Marshal w).1 =
    match redisErr rdb w, bindErr w with
    | None, None =>
      Serving ":8080"
        [gin.mkRoute "/*proxyPath" (Redis.handleRequest Marshal (Redis.mkServer (Some rdb) (Some context.Background)))]
    | _, _ => Returned
    end.
Proof.
  run_main. destruct (redis.reach _ w) as [b|e]; simpl;
    destruct (bindErr w); simpl; split; reflexivity.
Qed.

Lemma kafka_main_outcome (Marshal : RequestPayload -> string * option error) (w : World) :
  calls (Kafka.main Marshal w).2 = calls w /\
  (Kafka.main Marshal w).1 =
    match bindErr w with
    | None =>
      Serving ":8080"
        [gin.mkRoute "/*proxyPath" (Kafka.handleRequest Marshal (Kafka.mkServer (Some localKafka)))]
    | Some _ => Returned
    end.
Proof. run_main. destruct (bindErr w); simpl; split; reflexivity. Qed.







(** ** Headers *)

(** C7.  Capture puts the header map of the request into the envelope as
    it is: for every name the envelope holds what the request holds for
    it, all the values and in their order, so that a name with several
    values has them all there and not one value in their place; and what
    is handed to the backend is the serialization of that envelope. *)
Theorem repeated_header_values_kept
    (Marshal : RequestPayload -> string * option error)
    (rdb : redis.Client) (kc : kgo.Client)
    (h : Header) (name method uri : string) (chunks : list string) (w : World)
    (rs : Redis.Server) (ks : Kafka.Server) :
  let w0 := set_request (http.mkRequest method uri h (mkReader chunks None)) w in
  let e := mkPayload method uri h (sconcat chunks) in
  (Headers (Redis.parseRequest rs w0).1.1 = h /\
   entry name (Headers (Redis.parseRequest rs w0).1.1) = entry name h /\
   calls (redisRun Marshal rdb w0) =
     calls w ++
       match Marshal e with
       | (d, None) => [CallLPush (redis.Addr rdb) "request_queue" d]
       | (_, Some _) => []
       end)
  /\
  (Headers (Kafka.parseRequest ks w0).1.1 = h /\
   entry name (Headers (Kafka.parseRequest ks w0).1.1) = entry name h /\
   calls (kafkaRun Marshal kc w0) =
     calls w ++
       match Marshal e with
       | (d, None) => [CallProduceSync (kgo.seedBrokers kc) "foo" d]
       | (_, Some _) => []
       end).
Proof.
  intros w0 e. unfold redisRun, kafkaRun.
  split; (split; [reflexivity | split; [reflexivity|]]); subst w0 e;
    run_handler; destruct (Marshal _) as [d [x|]]; simpl; rewrite ?app_nil_r; try reflexivity.
  - destruct (net w !! redis.Addr rdb) as [b|]; simpl; [|reflexivity].
    destruct (fault b); reflexivity.
  - destruct (kgo.dial _ _) as [[a b]|]; simpl; [|reflexivity].
    destruct (fault b); reflexivity.
Qed.

(** The request of the examples has two values for [X-Tag]; the envelope
    has both, in their order. *)
Lemma x_tag_has_both_values (rs : Redis.Server) (ks : Kafka.Server) :
  entry "X-Tag" (Headers (Redis.parseRequest rs online).1.1) = Some (Some ["a"; "b"]) /\
  entry "X-Tag" (Headers (Kafka.parseRequest ks online).1.1) = Some (Some ["a"; "b"]).
Proof. split; vm_compute; reflexivity. Qed.

(** ** Start-up *)

(** C5. The Kafka producer makes no call to its backend before it serves:
    whatever the network, [main] ends in the serving loop unless the port
    cannot be bound, so with no broker anywhere it still accepts traffic. *)
Theorem kafka_serves_without_reaching_backend
    (Marshal : RequestPayload -> string * option error) (w : World) :
  calls (Kafka.main Marshal w).2 = calls w /\
  (Kafka.main Marshal w).1 =
    match bindErr w with
    | None =>
      Serving ":8080"
        [gin.mkRoute "/*proxyPath" (Kafka.handleRequest Marshal (Kafka.mkServer (Some localKafka)))]
    | Some _ => Returned
    end.
Proof. apply kafka_main_outcome. Qed.

(** The Redis producer pings the address of its flag once, and serves only
    if the backend answered. *)
Lemma redis_checks_backend_before_serving
    (Marshal : RequestPayload -> string * option error) (w : World) :
  let rdb := redis.mkOptions (default "localhost:6379" (flags w !! "redis")) 0 in
  calls (Redis.main Marshal w).2 = calls w ++ [CallPing (redis.Addr rdb)] /\
  (Redis.main Marshal w).1 =
    match redisErr rdb w, bindErr w with
    | None, None =>
      Serving ":8080"
        [gin.mkRoute "/*proxyPath" (Redis.handleRequest Marshal (Redis.mkServer (Some rdb) (Some context.Background)))]
    | _, _ => Returned
    end.
Proof. apply redis_main_outcome. Qed.

(** C8. The seeds given to the Kafka [NewServer] do not reach the client:
    it is the client of the library's default seed whatever they are. *)
Theorem kafka_ignores_seeds (seeds : list string) (w : World) :
  Kafka.NewServer seeds w = (Some (Kafka.mkServer (Some localKafka)), None, w).
Proof. reflexivity. Qed.

(** ** Examples *)

(** Outside the envelopes that are text: [json.Marshal] writes one text
    for two bodies of bytes that are no UTF-8. *)
Lemma Marshal_not_injective :
  (json.Marshal binaryBody).1 =
  (json.Marshal {| Method := "POST"; URI := "/upload"; Headers := None;
                   Body := String (chr 0xFE) "" |}).1.
Proof. vm_compute. reflexivity. Qed.

(** An envelope of valid text is given back. *)
Lemma round_trip_post :
  ValidPayload postPayload = true /\
  decode.Unmarshal (json.Marshal postPayload).1 = Some postPayload.
Proof.
  split; [vm_compute; reflexivity|].
  apply (round_trip_valid_utf8 postPayload). vm_compute. reflexivity.
Defined.

(** Outside the envelopes that are text: the body 0xFF comes back as the
    three bytes of U+FFFD. *)
Lemma binary_body_not_restored :
  decode.Unmarshal (json.Marshal binaryBody).1 =
    Some {| Method := "POST"; URI := "/upload"; Headers := None;
            Body := utf8.EncodeRune utf8.RuneError |} /\
  decode.Unmarshal (json.Marshal binaryBody).1 <> Some binaryBody.
Proof.
  split; [vm_compute; reflexivity|]. vm_compute. intros H. discriminate H.
Qed.

(** With no backend listening, both handlers answer with the message of
    the code and send the whole captured request. *)
Lemma offline_enqueue_failure :
  (stageOf json.Marshal (redisErr localRedis offline) offline =
     EnqueueFailed (redis.dialError "localhost:6379") /\
   stageOf json.Marshal (kafkaErr localKafka offline) offline =
     EnqueueFailed kgo.dialError) /\
  (written (redisRun json.Marshal localRedis offline) =
     written offline ++ [mkResponse 500 (object1 "error" "Failed to push to Redis queue")] /\
   logged (redisRun json.Marshal localRedis offline) =
     logged offline ++
       [mkLog LevelError "Failed to push to Redis queue"
          [("error", Error (redis.dialError "localhost:6379"))]] /\
   calls (redisRun json.Marshal localRedis offline) =
     calls offline ++
       [CallLPush (redis.Addr localRedis) "request_queue"
          (json.Marshal (captured offline)).1])
  /\
  (written (kafkaRun json.Marshal localKafka offline) =
     written offline ++ [mkResponse 500 (object1 "error" "Failed to push to Redis queue")] /\
   logged (kafkaRun json.Marshal localKafka offline) =
     logged offline ++
       [mkLog LevelError "Failed to push to Redis queue" [("error", Error kgo.dialError)]] /\
   calls (kafkaRun json.Marshal localKafka offline) =
     calls offline ++
       [CallProduceSync (kgo.seedBrokers localKafka) "foo"
          (json.Marshal (captured offline)).1]).
Proof.
  split; [split; reflexivity|].
  apply (enqueue_failure_response json.Marshal localRedis localKafka offline
           (redis.dialError "localhost:6379") kgo.dialError); reflexivity.
Defined.

(** The printer answers 200 to a POST whose body cannot be read. *)
Lemma printer_answers_200_on_read_failure :
  map Status (written (Printer.handler map_to_list brokenPost).2) = [200%nat] /\
  map Status (written (Printer.handler map_to_list brokenPost).2) <> [500%nat].
Proof.
  split; [vm_compute; reflexivity|]. vm_compute. intros H. discriminate H.
Qed.


(** The body of the 500 names Redis. *)
Lemma offline_body_is_not_generic :
  Payload <$> last (written (redisRun json.Marshal localRedis offline)) =
    Some (object1 "error" "Failed to push to Redis queue") /\
  Payload <$> last (written (redisRun json.Marshal localRedis offline)) <>
    Some (object1 "error" "Failed to push to queue").
Proof.
  split; [vm_compute; reflexivity|]. vm_compute. intros H. discriminate H.
Qed.

(** * Further properties *)

(** ** What a run does to the backend *)

Section Enqueue.
Variable Marshal : RequestPayload -> string * option error.
Variable rdb : redis.Client.
Variable kc : kgo.Client.

(** X1.  A run makes no call on the backend when capture or serialization
    fails, and otherwise one call, on the key [request_queue] or the topic
    [foo], whose value is the serialization of the captured request. *)
Theorem enqueue_call_carries_serialized_capture (w : World) :
  calls (redisRun Marshal rdb w) =
    calls w ++
      match stageOf Marshal (redisErr rdb w) w with
      | CaptureFailed _ | SerializeFailed _ => []
      | EnqueueFailed _ | Enqueued _ =>
        [CallLPush (redis.Addr rdb) "request_queue" (Marshal (captured w)).1]
      end
  /\
  calls (kafkaRun Marshal kc w) =
    calls w ++
      match stageOf Marshal (kafkaErr kc w) w with
      | CaptureFailed _ | SerializeFailed _ => []
      | EnqueueFailed _ | Enqueued _ =>
        [CallProduceSync (kgo.seedBrokers kc) "foo" (Marshal (captured w)).1]
      end.
Proof.
  unfold redisRun, kafkaRun. split; run_handler; stage_cases w Marshal;
    rewrite ?app_nil_r; reflexivity.
Qed.

Lemma redis_net (w : World) :
  net (redisRun Marshal rdb w) =
    match stageOf Marshal (redisErr rdb w) w with
    | Enqueued data => lpushed (redis.Addr rdb) "request_queue" data (net w)
    | _ => net w
    end.
Proof.
  unfold redisRun, lpushed. run_handler; stage_cases w Marshal; reflexivity.
Qed.

Lemma kafka_net (w : World) :
  net (kafkaRun Marshal kc w) =
    match stageOf Marshal (kafkaErr kc w) w with
    | Enqueued data => produced (kgo.seedBrokers kc) "foo" data (net w)
    | _ => net w
    end.
Proof.
  unfold kafkaRun, produced. run_handler; stage_cases w Marshal; reflexivity.
Qed.

Lemma redis_logged (w : World) :
  logged (redisRun Marshal rdb w) =
    logged w ++
      [match stageOf Marshal (redisErr rdb w) w with
       | CaptureFailed e => mkLog LevelError "Failed to read request body" [("error", Error e)]
       | SerializeFailed e | EnqueueFailed e =>
         mkLog LevelError "Failed to push to Redis queue" [("error", Error e)]
       | Enqueued _ =>
         mkLog LevelInfo "Request added to Redis queue"
           [("method", http.Method (request w)); ("uri", http.RequestURI (request w))]
       end].
Proof. unfold redisRun. run_handler; stage_cases w Marshal; reflexivity. Qed.

Lemma kafka_logged (w : World) :
  logged (kafkaRun Marshal kc w) =
    logged w ++
      [match stageOf Marshal (kafkaErr kc w) w with
       | CaptureFailed e => mkLog LevelError "Failed to read request body" [("error", Error e)]
       | SerializeFailed e | EnqueueFailed e =>
         mkLog LevelError "Failed to push to Redis queue" [("error", Error e)]
       | Enqueued _ =>
         mkLog LevelInfo "Request added to Redis queue"
           [("method", http.Method (request w)); ("uri", http.RequestURI (request w))]
       end].
Proof. unfold kafkaRun. run_handler; stage_cases w Marshal; reflexivity. Qed.

Lemma redis_request (w : World) :
  request (redisRun Marshal rdb w) = request (io.ReadAll w).2.
Proof. unfold redisRun. run_handler; stage_cases w Marshal; reflexivity. Qed.

Lemma kafka_request (w : World) :
  request (kafkaRun Marshal kc w) = request (io.ReadAll w).2.
Proof. unfold kafkaRun. run_handler; stage_cases w Marshal; reflexivity. Qed.

Lemma redis_frame (w : World) :
  stdout (redisRun Marshal rdb w) = stdout w /\
  flags (redisRun Marshal rdb w) = flags w /\
  bindErr (redisRun Marshal rdb w) = bindErr w.
Proof. unfold redisRun. run_handler; stage_cases w Marshal; auto. Qed.

Lemma kafka_frame (w : World) :
  stdout (kafkaRun Marshal kc w) = stdout w /\
  flags (kafkaRun Marshal kc w) = flags w /\
  bindErr (kafkaRun Marshal kc w) = bindErr w.
Proof. unfold kafkaRun. run_handler; stage_cases w Marshal; auto. Qed.


(** X2.  A request that is enqueued ends at the head of the Redis list
    [request_queue], or at the end of the Kafka log [foo]; nothing else
    in the backends changes. *)
Theorem enqueued_request_is_stored (w : World) (d1 d2 : string) :
  stageOf Marshal (redisErr rdb w) w = Enqueued d1 ->
  stageOf Marshal (kafkaErr kc w) w = Enqueued d2 ->
  (d1 = (Marshal (captured w)).1 /\
   exists b b',
     net w !! redis.Addr rdb = Some b /\
     net (redisRun Marshal rdb w) !! redis.Addr rdb = Some b' /\
     fault b' = None /\
     stored b' !! "request_queue" = Some (d1 :: default [] (stored b !! "request_queue")) /\
     (forall k, k <> "request_queue" -> stored b' !! k = stored b !! k) /\
     (forall a, a <> redis.Addr rdb -> net (redisRun Marshal rdb w) !! a = net w !! a))
  /\
  (d2 = (Marshal (captured w)).1 /\
   exists a b b',
     kgo.dial (kgo.seedBrokers kc) (net w) = Some (a, b) /\
     net (kafkaRun Marshal kc w) !! a = Some b' /\
     fault b' = None /\
     stored b' !! "foo" = Some (default [] (stored b !! "foo") ++ [d2]) /\
     (forall k, k <> "foo" -> stored b' !! k = stored b !! k) /\
     (forall a', a' <> a -> net (kafkaRun Marshal kc w) !! a' = net w !! a')).
Proof.
  intros H1 H2. split.
  - rewrite redis_net, H1. clear H2. revert H1.
    unfold stageOf, redisErr, redis.reach, lpushed.
    destruct (failure _); [discriminate|].
    destruct (Marshal (captured w)) as [data [e|]]; [discriminate|].
    destruct (net w !! redis.Addr rdb) as [b|] eqn:Eb; [|discriminate].
    destruct (fault b) eqn:Ef; [discriminate|]. intros H; inversion H; subst.
    split; [reflexivity|]. exists b. eexists. split; [reflexivity|].
    split; [apply lookup_insert_eq|]. split; [reflexivity|].
    split; [apply lookup_insert_eq|]. split.
    + intros k Hk. apply lookup_insert_ne. congruence.
    + intros a Ha. apply lookup_insert_ne. congruence.
  - rewrite kafka_net, H2. clear H1. revert H2.
    unfold stageOf, kafkaErr, produced.
    destruct (failure _); [discriminate|].
    destruct (Marshal (captured w)) as [data [e|]]; [discriminate|].
    destruct (kgo.dial _ _) as [[a b]|] eqn:Ed; [|discriminate].
    destruct (fault b) eqn:Ef; [discriminate|]. intros H; inversion H; subst.
    split; [reflexivity|]. exists a, b. eexists. split; [reflexivity|].
    split; [apply lookup_insert_eq|]. split; [reflexivity|].
    split; [apply lookup_insert_eq|]. split.
    + intros k Hk. apply lookup_insert_ne. congruence.
    + intros a' Ha. apply lookup_insert_ne. congruence.
Qed.

(** X3.  On success the one log record has level info and holds the method
    and the URI of the request. *)
Theorem success_is_logged_with_method_and_uri (w : World) (d1 d2 : string) :
  stageOf Marshal (redisErr rdb w) w = Enqueued d1 ->
  stageOf Marshal (kafkaErr kc w) w = Enqueued d2 ->
  logged (redisRun Marshal rdb w) =
    logged w ++
      [mkLog LevelInfo "Request added to Redis queue"
         [("method", http.Method (request w)); ("uri", http.RequestURI (request w))]] /\
  logged (kafkaRun Marshal kc w) =
    logged w ++
      [mkLog LevelInfo "Request added to Redis queue"
         [("method", http.Method (request w)); ("uri", http.RequestURI (request w))]].
Proof.
  intros H1 H2. rewrite redis_logged, kafka_logged, H1, H2. split; reflexivity.
Qed.

(** X4.  The handlers read the body to its end in every case, also when
    the request fails at some stage, and leave the method, the URI and
    the header map of the request as they are. *)
Theorem handler_drains_body (w : World) :
  let drained :=
    http.mkRequest (http.Method (request w)) (http.RequestURI (request w))
      (http.Header (request w)) (mkReader [] (failure (http.Body (request w)))) in
  request (redisRun Marshal rdb w) = drained /\
  request (kafkaRun Marshal kc w) = drained.
Proof.
  intros drained. rewrite redis_request, kafka_request. split; reflexivity.
Qed.

(** X5.  A request that fails leaves the backends as they were and changes
    nothing for the one handled after it: the backends after the next
    request and the answer to it are what they are without the failed
    one. *)
Theorem failed_request_leaves_no_trace (w : World) (r1 r2 : http.Request) :
  match stageOf Marshal (redisErr rdb w) (set_request r1 w) with
  | Enqueued _ => True
  | _ =>
    net (redisRun Marshal rdb (set_request r1 w)) = net w /\
    net (redisRun Marshal rdb (set_request r2 (redisRun Marshal rdb (set_request r1 w)))) =
      net (redisRun Marshal rdb (set_request r2 w)) /\
    last (written (redisRun Marshal rdb (set_request r2 (redisRun Marshal rdb (set_request r1 w))))) =
      last (written (redisRun Marshal rdb (set_request r2 w)))
  end /\
  match stageOf Marshal (kafkaErr kc w) (set_request r1 w) with
  | Enqueued _ => True
  | _ =>
    net (kafkaRun Marshal kc (set_request r1 w)) = net w /\
    net (kafkaRun Marshal kc (set_request r2 (kafkaRun Marshal kc (set_request r1 w)))) =
      net (kafkaRun Marshal kc (set_request r2 w)) /\
    last (written (kafkaRun Marshal kc (set_request r2 (kafkaRun Marshal kc (set_request r1 w))))) =
      last (written (kafkaRun Marshal kc (set_request r2 w)))
  end.
Proof.
  split.
  - pose proof (redis_net (set_request r1 w)) as N. cbn [net set_request] in N.
    change (redisErr rdb (set_request r1 w)) with (redisErr rdb w) in N.
    destruct (stageOf Marshal (redisErr rdb w) (set_request r1 w)); try exact I;
      (split; [exact N|]; rewrite !redis_net, !redis_written, !last_snoc;
       set (w1 := redisRun Marshal rdb (set_request r1 w)) in *;
       assert (redisErr rdb (set_request r2 w1) = redisErr rdb (set_request r2 w)) as ->
         by (unfold redisErr, redis.reach; cbn [net set_request]; rewrite N; reflexivity);
       cbn [net set_request]; rewrite N;
       change (stageOf Marshal (redisErr rdb (set_request r2 w)) (set_request r2 w1))
         with (stageOf Marshal (redisErr rdb (set_request r2 w)) (set_request r2 w));
       split; reflexivity).
  - pose proof (kafka_net (set_request r1 w)) as N. cbn [net set_request] in N.
    change (kafkaErr kc (set_request r1 w)) with (kafkaErr kc w) in N.
    destruct (stageOf Marshal (kafkaErr kc w) (set_request r1 w)); try exact I;
      (split; [exact N|]; rewrite !kafka_net, !kafka_written, !last_snoc;
       set (w1 := kafkaRun Marshal kc (set_request r1 w)) in *;
       assert (kafkaErr kc (set_request r2 w1) = kafkaErr kc (set_request r2 w)) as ->
         by (unfold kafkaErr; cbn [net set_request]; rewrite N; reflexivity);
       cbn [net set_request]; rewrite N;
       change (stageOf Marshal (kafkaErr kc (set_request r2 w)) (set_request r2 w1))
         with (stageOf Marshal (kafkaErr kc (set_request r2 w)) (set_request r2 w));
       split; reflexivity).
Qed.

End Enqueue.

(** ** Requests one after the other *)

Lemma stage_json (backendErr : option error) (w : World) :
  stageOf json.Marshal backendErr w =
  match failure (http.Body (request w)) with
  | Some e => CaptureFailed e
  | None =>
    match backendErr with
    | Some e => EnqueueFailed e
    | None => Enqueued (json.Marshal (captured w)).1
    end
  end.
Proof. unfold stageOf. destruct (failure _); reflexivity. Qed.

Lemma redis_queue_order (rdb : redis.Client) (reqs : list http.Request) :
  forall (w : World) (b : Broker),
  Forall (fun r => failure (http.Body r) = None) reqs ->
  net w !! redis.Addr rdb = Some b -> fault b = None ->
  exists b',
    net (serveAll (Redis.handleRequest json.Marshal
                     (Redis.mkServer (Some rdb) (Some context.Background))) reqs w)
      !! redis.Addr rdb = Some b' /\
    fault b' = None /\
    default [] (stored b' !! "request_queue") =
      rev (map serialized reqs) ++ default [] (stored b !! "request_queue").
Proof.
  induction reqs as [|r reqs IH]; intros w b F Hb Hf.
  - exists b. auto.
  - inversion F as [|? ? Fr F']; subst. cbn [serveAll].
    change ((Redis.handleRequest json.Marshal
               (Redis.mkServer (Some rdb) (Some context.Background)) (set_request r w)).2)
      with (redisRun json.Marshal rdb (set_request r w)).
    set (w1 := redisRun json.Marshal rdb (set_request r w)).
    assert (net w1 !! redis.Addr rdb =
            Some (mkBroker None (<["request_queue" :=
                    serialized r :: default [] (stored b !! "request_queue")]> (stored b)))) as N.
    { unfold w1. rewrite redis_net, stage_json. cbn [request set_request]. rewrite Fr.
      unfold redisErr, redis.reach, lpushed. cbn [net set_request]. rewrite Hb, Hf.
      apply lookup_insert_eq. }
    destruct (IH w1 _ F' N eq_refl) as (b' & E1 & E2 & E3).
    exists b'. split; [exact E1|]. split; [exact E2|].
    rewrite E3. cbn [stored]. rewrite lookup_insert_eq. cbn [default map rev].
    rewrite <- app_assoc. reflexivity.
Qed.

Lemma dial_insert (seeds : list string) (n : gmap string Broker) (a : string) (b b' : Broker) :
  kgo.dial seeds n = Some (a, b) -> kgo.dial seeds (<[a := b']> n) = Some (a, b').
Proof.
  induction seeds as [|x seeds IH]; simpl; [discriminate|].
  destruct (decide (x = a)) as [->|NE].
  - rewrite lookup_insert_eq. destruct (n !! a); intros; reflexivity || (apply IH in H; congruence).
  - rewrite lookup_insert_ne by congruence. destruct (n !! x); [congruence|]. exact IH.
Qed.

Lemma kafka_log_order (kc : kgo.Client) (reqs : list http.Request) :
  forall (w : World) (a : string) (b : Broker),
  Forall (fun r => failure (http.Body r) = None) reqs ->
  kgo.dial (kgo.seedBrokers kc) (net w) = Some (a, b) -> fault b = None ->
  exists b',
    kgo.dial (kgo.seedBrokers kc)
      (net (serveAll (Kafka.handleRequest json.Marshal (Kafka.mkServer (Some kc))) reqs w))
      = Some (a, b') /\
    fault b' = None /\
    default [] (stored b' !! "foo") =
      default [] (stored b !! "foo") ++ map serialized reqs.
Proof.
  induction reqs as [|r reqs IH]; intros w a b F Hb Hf.
  - exists b. rewrite app_nil_r. auto.
  - inversion F as [|? ? Fr F']; subst. cbn [serveAll].
    change ((Kafka.handleRequest json.Marshal (Kafka.mkServer (Some kc)) (set_request r w)).2)
      with (kafkaRun json.Marshal kc (set_request r w)).
    set (w1 := kafkaRun json.Marshal kc (set_request r w)).
    assert (kgo.dial (kgo.seedBrokers kc) (net w1) =
            Some (a, mkBroker None (<["foo" :=
                    default [] (stored b !! "foo") ++ [serialized r]]> (stored b)))) as N.
    { unfold w1. rewrite kafka_net, stage_json. cbn [request set_request]. rewrite Fr.
      unfold kafkaErr, produced. cbn [net set_request]. rewrite Hb, Hf.
      apply (dial_insert _ _ _ b). exact Hb. }
    destruct (IH w1 _ _ F' N eq_refl) as (b' & E1 & E2 & E3).
    exists b'. split; [exact E1|]. split; [exact E2|].
    rewrite E3. cbn [stored]. rewrite lookup_insert_eq. cbn [default map].
    unfold id. rewrite <- app_assoc. reflexivity.
Qed.

(** X6.  Requests handled one after the other are in the Redis list newest
    first and in the Kafka log oldest first. *)
Theorem requests_are_queued_in_order
    (rdb : redis.Client) (kc : kgo.Client) (reqs : list http.Request)
    (w : World) (a : string) (rb kb : Broker) :
  Forall (fun r => failure (http.Body r) = None) reqs ->
  net w !! redis.Addr rdb = Some rb -> fault rb = None ->
  kgo.dial (kgo.seedBrokers kc) (net w) = Some (a, kb) -> fault kb = None ->
  (exists b',
     net (serveAll (Redis.handleRequest json.Marshal
                      (Redis.mkServer (Some rdb) (Some context.Background))) reqs w)
       !! redis.Addr rdb = Some b' /\
     default [] (stored b' !! "request_queue") =
       rev (map serialized reqs) ++ default [] (stored rb !! "request_queue"))
  /\
  (exists b',
     kgo.dial (kgo.seedBrokers kc)
       (net (serveAll (Kafka.handleRequest json.Marshal (Kafka.mkServer (Some kc))) reqs w))
       = Some (a, b') /\
     default [] (stored b' !! "foo") =
       default [] (stored kb !! "foo") ++ map serialized reqs).
Proof.
  intros F R1 R2 K1 K2. split.
  - destruct (redis_queue_order rdb reqs w rb F R1 R2) as (b' & ? & ? & ?). eauto.
  - destruct (kafka_log_order kc reqs w a kb F K1 K2) as (b' & ? & ? & ?). eauto.
Qed.

(** ** Start-up of the Redis producer *)

(** X8.  The Redis producer starts by pinging the address of its flag, once; it
    logs the failure, with the address and the cause, and returns, or logs
    that it is connected; it answers no request and stores nothing. *)
Theorem redis_startup (Marshal : RequestPayload -> string * option error) (w : World) :
  let addr := default "localhost:6379" (flags w !! "redis") in
  let w' := (Redis.main Marshal w).2 in
  calls w' = calls w ++ [CallPing addr] /\
  logged w' =
    logged w ++
      match redisErr (redis.mkOptions addr 0) w with
      | Some e =>
        [mkLog LevelError "Failed to initialize server"
           [("error", "failed to connect to Redis at " +:+ addr +:+ ": " +:+ Error e)]]
      | None =>
        mkLog LevelInfo "Connected to Redis" [("address", addr)] ::
        match bindErr w with
        | Some e => [mkLog LevelError "Failed to start server" [("error", Error e)]]
        | None => []
        end
      end /\
  net w' = net w /\ written w' = written w /\
  match (Redis.main Marshal w).1 with
  | Serving _ _ => redisErr (redis.mkOptions addr 0) w = None /\ bindErr w = None
  | Returned => True
  end.
Proof.
  run_main. destruct (redis.reach _ w) as [b|e]; simpl;
    destruct (bindErr w); simpl; rewrite <- ?app_assoc; repeat split; reflexivity.
Qed.


(** ** What the printer prints *)

(** X15.  The Kafka producer starts without a call on any backend: it logs
    that it is connected, with the text of its flag as the address, whether
    or not anything listens there, and never logs a failure to initialize;
    what is left to go wrong is the port. *)
Theorem kafka_startup (Marshal : RequestPayload -> string * option error) (w : World) :
  let raw := default "localhost:9092" (flags w !! "kafka address") in
  let w' := (Kafka.main Marshal w).2 in
  calls w' = calls w /\
  logged w' =
    logged w ++
      mkLog LevelInfo "Connected to kafka" [("address", raw)] ::
      match bindErr w with
      | Some e => [mkLog LevelError "Failed to start server" [("error", Error e)]]
      | None => []
      end /\
  net w' = net w /\ written w' = written w /\
  match (Kafka.main Marshal w).1 with
  | Serving _ _ => bindErr w = None
  | Returned => bindErr w <> None
  end.
Proof.
  run_main. destruct (bindErr w); simpl; rewrite <- ?app_assoc;
    repeat split; try reflexivity; discriminate.
Qed.

(** X9.  The printer prints the method, the URI, one line for each name of
    the header map, in the order [range] visits them, which is some order
    of the entries of the map, and the body when the method is POST or PUT
    and the body could be read; it makes no call on a backend and logs
    nothing. *)
Theorem printer_output
    (range : gmap string Values -> list (string * Values)) (w : World) :
  (forall m, range m ≡ₚ map_to_list m) ->
  let r := request w in
  let reads := String.eqb (http.Method r) "POST" || String.eqb (http.Method r) "PUT" in
  let lines := map headerLine (range (default ∅ (http.Header r))) in
  stdout (Printer.handler range w).2 =
    stdout w ++
      ["Method: " +:+ http.Method r +:+ Printer.newline;
       "URI: " +:+ http.RequestURI r +:+ Printer.newline;
       "Headers:" +:+ Printer.newline] ++
      lines ++
      (if reads
       then match failure (http.Body r) with
            | None => ["Body: " +:+ sconcat (pending (http.Body r)) +:+ Printer.newline]
            | Some _ => []
            end
       else []) /\
  lines ≡ₚ map headerLine (map_to_list (default ∅ (http.Header r))) /\
  length lines = size (default ∅ (http.Header r)) /\
  calls (Printer.handler range w).2 = calls w /\
  net (Printer.handler range w).2 = net w /\
  logged (Printer.handler range w).2 = logged w.
Proof.
  intros R r reads lines. subst r reads lines.
  split; [|split; [apply Permutation_map, R | split; [rewrite length_map, R; apply length_map_to_list |]]];
  unfold Printer.handler, bind, ret, fmt.Print; cbn [fst snd];
  rewrite printHeaders_run; unfold http.MethodPost, http.MethodPut;
  (destruct (String.eqb (http.Method (request w)) "POST"
             || String.eqb (http.Method (request w)) "PUT");
   [ unfold io.ReadAll, bind, ret, fmt.Print, gin.JSON; cbn;
     destruct (failure (http.Body (request w))); cbn; rewrite <- ?app_assoc; cbn;
       rewrite ?app_nil_r; repeat split; reflexivity
   | cbn; rewrite <- ?app_assoc; cbn; rewrite ?app_nil_r; repeat split; reflexivity ]).
Qed.


(** ** The seeds of the Kafka producer *)

Lemma join_cons_cons (sep x y : string) (l : list string) :
  json.join sep (x :: y :: l) = x +:+ sep +:+ json.join sep (y :: l).
Proof. reflexivity. Qed.

Lemma length_Split (s : string) (sep : ascii) :
  length (strings.Split s sep) = S (occurrences sep s).
Proof.
  induction s as [|c t IH]; [reflexivity|]. cbn [strings.Split occurrences].
  destruct (Ascii.eqb c sep); cbn [length]; [rewrite IH; reflexivity|].
  destruct (strings.Split t sep); cbn [length] in *; lia.
Qed.


(** X10.  Splitting at a separator and joining with it gives the string
    back; no piece holds the separator, and there is one piece more than
    there are separators, so one piece, the string, when there is none. *)
Theorem Split_join (s : string) (sep : ascii) :
  json.join (String sep "") (strings.Split s sep) = s /\
  Forall (fun x => occurrences sep x = 0%nat) (strings.Split s sep) /\
  length (strings.Split s sep) = S (occurrences sep s).
Proof.
  split; [|split; [|apply length_Split]].
  - induction s as [|c t IH]; [reflexivity|]. cbn [strings.Split].
    pose proof (length_Split t sep) as L.
    destruct (strings.Split t sep) as [|x l] eqn:E; [discriminate L|].
    destruct (Ascii.eqb_spec c sep) as [->|Hc].
    + rewrite join_cons_cons, IH. reflexivity.
    + destruct l as [|y l].
      * cbn [json.join] in *. rewrite IH. reflexivity.
      * rewrite join_cons_cons in *. cbn [String.append] in *. rewrite IH. reflexivity.
  - induction s as [|c t IH]; [repeat constructor|]. cbn [strings.Split].
    pose proof (length_Split t sep) as L.
    destruct (strings.Split t sep) as [|x l] eqn:E; [discriminate L|].
    destruct (Ascii.eqb c sep) eqn:Hc.
    + constructor; [reflexivity | exact IH].
    + pose proof (Forall_inv IH) as Fx. pose proof (Forall_inv_tail IH) as Fl.
      constructor; [|exact Fl]. cbn [occurrences]. rewrite Hc. exact Fx.
Qed.

(** ** The shape of what the encoder writes *)

Lemma allPlain_app (x y : string) : allPlain (x +:+ y) = allPlain x && allPlain y.
Proof. induction x as [|c x IH]; simpl; [reflexivity|]. rewrite IH, andb_assoc. reflexivity. Qed.

(** What is written for an ASCII byte is plain. *)
Lemma appendRune_ascii_plain (n : N) (c0 : ascii) :
  byte c0 < 0x80 -> allPlain (json.appendRune (n, String c0 "")) = true.
Proof.
  destruct c0 as [[] [] [] [] [] [] [] []]; intros H;
    try (vm_compute in H; discriminate H); reflexivity.
Qed.

Section Shape.
(** A property of texts that holds of plain bytes and of well-formed
    sequences of more than one byte, and is kept by concatenation. *)
Variable P : string -> Prop.
Hypothesis P_nil : P "".
Hypothesis P_app : forall x y, P x -> P y -> P (x +:+ y).
Hypothesis P_plain : forall c, plain c = true -> P (String c "").
Hypothesis P_rune : forall c c0 r, Rune c (String c0 r) -> 0x80 <= byte c0 -> P (String c0 r).

Lemma P_allPlain (s : string) : allPlain s = true -> P s.
Proof.
  induction s as [|c t IH]; simpl; intros H; [exact P_nil|].
  apply andb_prop in H as [Hc Ht].
  change (String c t) with (String c "" +:+ t). apply P_app; auto.
Qed.

Lemma P_appendRune (r : N * string) :
  utf8.is_error r = true \/ Rune r.1 r.2 -> P (json.appendRune r).
Proof.
  destruct r as [c bs]. cbn [fst snd]. intros [E|R].
  - unfold utf8.is_error in E. cbn [fst snd] in E. apply andb_prop in E as [Ec El].
    destruct bs as [|c0 [|c1 t]]; try discriminate El.
    unfold json.appendRune.
    destruct (N.ltb_spec (byte c0) utf8.RuneSelf) as [L|L].
    + pose proof (appendRune_ascii_plain c c0 L) as A. unfold json.appendRune in A.
      destruct (N.ltb_spec (byte c0) utf8.RuneSelf); [|unfold utf8.RuneSelf in *; lia].
      apply P_allPlain, A.
    + rewrite Ec. cbn. apply P_allPlain. reflexivity.
  - inversion R as [c0 F|c0 c1 lo hi F|c0 c1 c2 lo hi F|c0 c1 c2 c3 lo hi F]; subst.
    + apply P_allPlain, appendRune_ascii_plain, first_single, F.
    + pose proof (rune_not_error _ _ R) as NE. unfold utf8.is_error in NE. cbn [fst snd] in NE.
      apply first_inv in F. unfold json.appendRune, utf8.RuneSelf.
      destruct (N.ltb_spec (byte c0) 0x80); [lia|]. rewrite NE.
      destruct ((_ =? 8232) || (_ =? 8233)) eqn:U.
      * apply P_app; [apply P_allPlain; reflexivity|].
        apply orb_prop in U as [U|U]; apply N.eqb_eq in U; rewrite U;
          apply P_allPlain; reflexivity.
      * apply (P_rune _ _ _ R). lia.
    + pose proof (rune_not_error _ _ R) as NE. unfold utf8.is_error in NE. cbn [fst snd] in NE.
      apply first_inv in F. unfold json.appendRune, utf8.RuneSelf.
      destruct (N.ltb_spec (byte c0) 0x80); [lia|]. rewrite NE.
      destruct ((_ =? 8232) || (_ =? 8233)) eqn:U.
      * apply P_app; [apply P_allPlain; reflexivity|].
        apply orb_prop in U as [U|U]; apply N.eqb_eq in U; rewrite U;
          apply P_allPlain; reflexivity.
      * apply (P_rune _ _ _ R). lia.
    + pose proof (rune_not_error _ _ R) as NE. unfold utf8.is_error in NE. cbn [fst snd] in NE.
      apply first_inv in F. unfold json.appendRune, utf8.RuneSelf.
      destruct (N.ltb_spec (byte c0) 0x80); [lia|]. rewrite NE.
      destruct ((_ =? 8232) || (_ =? 8233)) eqn:U.
      * apply P_app; [apply P_allPlain; reflexivity|].
        apply orb_prop in U as [U|U]; apply N.eqb_eq in U; rewrite U;
          apply P_allPlain; reflexivity.
      * apply (P_rune _ _ _ R). lia.
Qed.

Lemma P_sconcat (l : list string) : Forall P l -> P (sconcat l).
Proof. induction 1; simpl; auto. Qed.

Lemma P_appendString (s : string) : P (json.appendString s).
Proof.
  unfold json.appendString.
  change (String json.quote (sconcat (map json.appendRune (utf8.runes s)) +:+ String json.quote ""))
    with (String json.quote "" +:+ (sconcat (map json.appendRune (utf8.runes s)) +:+ String json.quote "")).
  apply P_app; [apply P_plain; reflexivity|].
  apply P_app; [|apply P_plain; reflexivity].
  apply P_sconcat. apply List.Forall_map.
  pose proof (proj2 (runes_spec (String.length s) s (le_n _))) as F.
  eapply Forall_impl; [exact F|]. intros r Hr. apply P_appendRune, Hr.
Qed.

Lemma P_join (sep : string) (l : list string) : P sep -> Forall P l -> P (json.join sep l).
Proof.
  intros Hs. induction 1 as [|x l Hx F IH]; [exact P_nil|].
  destruct l as [|y l]; [exact Hx|].
  change (P (x +:+ sep +:+ json.join sep (y :: l))). auto.
Qed.

Lemma P_encodeValues (v : Values) : P (json.encodeValues v).
Proof.
  destruct v as [l|]; [|apply P_allPlain; reflexivity].
  unfold json.encodeValues. apply P_app; [apply P_plain; reflexivity|].
  apply P_app; [|apply P_plain; reflexivity].
  apply P_join; [apply P_plain; reflexivity|].
  apply List.Forall_map. apply Forall_forall. intros; apply P_appendString.
Qed.

Lemma P_encodeHeader (h : Header) : P (json.encodeHeader h).
Proof.
  destruct h as [m|]; [|apply P_allPlain; reflexivity].
  unfold json.encodeHeader. apply P_app; [apply P_plain; reflexivity|].
  apply P_app; [|apply P_plain; reflexivity].
  apply P_join; [apply P_plain; reflexivity|].
  apply List.Forall_map. apply Forall_forall. intros kv _.
  unfold json.encodeMember. apply P_app; [apply P_appendString|].
  apply P_app; [apply P_plain; reflexivity|apply P_encodeValues].
Qed.

Lemma P_Marshal (e : RequestPayload) : P (json.Marshal e).1.
Proof.
  unfold json.Marshal. cbn [fst].
  repeat (apply P_app;
          [first [apply P_appendString | apply P_encodeHeader | apply P_plain; reflexivity]|]).
  apply P_plain; reflexivity.
Qed.

End Shape.

Lemma valid_rune_prefix (c : N) (bs t : string) :
  Rune c bs -> utf8.ValidString (bs +:+ t) = utf8.ValidString t.
Proof.
  intros R. unfold utf8.ValidString. rewrite (runes_rune _ _ t R). cbn [forallb].
  rewrite (rune_not_error _ _ R). reflexivity.
Qed.

Lemma first_ascii (b : N) : b < 0x80 -> utf8.first b = utf8.Single.
Proof. intros H. unfold utf8.first. destruct (N.ltb_spec b 0x80); [reflexivity|lia]. Qed.

Lemma plain_lt (c : ascii) : plain c = true -> 0x20 <= byte c /\ byte c < 0x80.
Proof.
  unfold plain. intros H. apply andb_prop in H as [H _]. apply andb_prop in H as [H1 H2].
  apply N.leb_le in H1. apply N.ltb_lt in H2. auto.
Qed.

(** X11.  Whatever the bytes of the request, what is handed to the backend is
    valid UTF-8. *)
Theorem serialized_envelope_is_valid_utf8 (e : RequestPayload) :
  utf8.ValidString (json.Marshal e).1 = true.
Proof.
  rewrite <- (sapp_nil_r (json.Marshal e).1).
  change true with (utf8.ValidString "").
  apply (P_Marshal (fun x => forall t, utf8.ValidString (x +:+ t) = utf8.ValidString t)).
  - reflexivity.
  - intros x y Hx Hy t. rewrite sapp_assoc, Hx, Hy. reflexivity.
  - intros c Hc t. apply (valid_rune_prefix (byte c)). constructor.
    apply first_ascii. apply plain_lt in Hc. lia.
  - intros c c0 r R _ t. apply (valid_rune_prefix c). exact R.
Qed.

Lemma lineSafe_app (x y : string) : lineSafe (x +:+ y) = lineSafe x && lineSafe y.
Proof. induction x as [|c x IH]; simpl; [reflexivity|]. rewrite IH, andb_assoc. reflexivity. Qed.

Lemma lineSafe_high (b : N) :
  0x80 <= b -> (0x20 <=? b) && negb ((b =? 38) || (b =? 60) || (b =? 62)) = true.
Proof.
  intros H. destruct (N.leb_spec 0x20 b); [|lia].
  destruct (N.eqb_spec b 38); [lia|]. destruct (N.eqb_spec b 60); [lia|].
  destruct (N.eqb_spec b 62); [lia|]. reflexivity.
Qed.

(** X12.  Whatever the bytes of the request, what is handed to the backend has
    no control byte, so no line break, and none of [<], [>], [&]. *)
Theorem serialized_envelope_is_line_safe (e : RequestPayload) :
  lineSafe (json.Marshal e).1 = true.
Proof.
  apply (P_Marshal (fun x => lineSafe x = true)).
  - reflexivity.
  - intros x y Hx Hy. rewrite lineSafe_app, Hx, Hy. reflexivity.
  - intros c Hc. unfold plain in Hc. cbn [lineSafe]. rewrite andb_true_r.
    apply andb_prop in Hc as [Hc Hn]. apply andb_prop in Hc as [H1 _]. rewrite H1, Hn. reflexivity.
  - intros c c0 r R H0.
    inversion R as [?|? c1 lo hi F L1 L2|? c1 c2 lo hi F L1 L2 C2|? c1 c2 c3 lo hi F L1 L2 C2 C3];
      subst; cbn [lineSafe]; rewrite ?andb_true_r.
    + apply lineSafe_high, H0.
    + apply first_inv in F. rewrite !lineSafe_high by lia. reflexivity.
    + apply first_inv in F. apply cont_inv in C2. rewrite !lineSafe_high by lia. reflexivity.
    + apply first_inv in F. apply cont_inv in C2. apply cont_inv in C3.
      rewrite !lineSafe_high by lia. reflexivity.
Qed.

(** ** Distinct envelopes, distinct texts *)

Lemma Unmarshal_Marshal (e : RequestPayload) :
  ValidPayload e = true -> decode.Unmarshal (json.Marshal e).1 = Some e.
Proof.
  intros V. rewrite Marshal_text. unfold decode.Unmarshal. punct.
  destruct (appendString_head "method"
              (String ":" (json.appendString (Method e) +:+ String ","
  (json.appendString "uri" +:+ String ":" (json.appendString (URI e) +:+ String ","
  (json.appendString "headers" +:+ String ":" (json.encodeHeader (Headers e) +:+ String ","
  (json.appendString "body" +:+ String ":" (json.appendString (Body e) +:+ String "}" "")))))))))
    as [r E].
  fold (membersText e "") in E. rewrite E. punct. rewrite <- E.
  rewrite fields_membersText; [reflexivity|assumption|].
  cbn [String.length]. lia.
Qed.

(** X13.  Two envelopes of valid text that differ are written differently. *)
Theorem Marshal_injective_on_text (e1 e2 : RequestPayload) :
  ValidPayload e1 = true -> ValidPayload e2 = true -> e1 <> e2 ->
  (json.Marshal e1).1 <> (json.Marshal e2).1.
Proof.
  intros V1 V2 NE H. apply NE.
  pose proof (Unmarshal_Marshal e1 V1) as U1. pose proof (Unmarshal_Marshal e2 V2) as U2.
  rewrite H in U1. congruence.
Qed.

Lemma Marshal_injective_example :
  (ValidPayload postPayload = true /\ ValidPayload zeroPayload = true /\
   postPayload <> zeroPayload) /\
  (json.Marshal postPayload).1 <> (json.Marshal zeroPayload).1.
Proof.
  assert (postPayload <> zeroPayload) as NE by (intros H; discriminate (f_equal Method H)).
  split; [split; [vm_compute; reflexivity | split; [vm_compute; reflexivity | exact NE]]|].
  apply (Marshal_injective_on_text postPayload zeroPayload);
    [vm_compute; reflexivity | vm_compute; reflexivity | exact NE].
Defined.

(** ** The producers side by side *)

Section Alike.
Variable Marshal : RequestPayload -> string * option error.
Variable rdb : redis.Client.
Variable kc : kgo.Client.

(** X7.  What was read of a body before it broke off leaves no trace: capture
    gives the zero envelope, and the whole outcome of the run is the same
    whatever was read. *)
Theorem partial_body_is_discarded (w : World) (chunks1 chunks2 : list string) (e : error)
    (rs : Redis.Server) (ks : Kafka.Server) :
  ((Redis.parseRequest rs (withBody chunks1 (Some e) w)).1 = (zeroPayload, Some e) /\
   redisRun Marshal rdb (withBody chunks1 (Some e) w) =
     redisRun Marshal rdb (withBody chunks2 (Some e) w))
  /\
  ((Kafka.parseRequest ks (withBody chunks1 (Some e) w)).1 = (zeroPayload, Some e) /\
   kafkaRun Marshal kc (withBody chunks1 (Some e) w) =
     kafkaRun Marshal kc (withBody chunks2 (Some e) w)).
Proof. repeat split; reflexivity. Qed.

(** X14.  The two producers answer alike when their backends both accept or
    both refuse: the same responses, and log records of the same level
    and message. *)
Theorem producers_answer_alike (w : World) :
  match redisErr rdb w, kafkaErr kc w with
  | None, None | Some _, Some _ =>
    written (redisRun Marshal rdb w) = written (kafkaRun Marshal kc w) /\
    map level (logged (redisRun Marshal rdb w)) = map level (logged (kafkaRun Marshal kc w)) /\
    map message (logged (redisRun Marshal rdb w)) = map message (logged (kafkaRun Marshal kc w))
  | _, _ => True
  end.
Proof.
  destruct (redisErr rdb w) as [e1|] eqn:E1; destruct (kafkaErr kc w) as [e2|] eqn:E2;
    try exact I;
    rewrite redis_written, kafka_written, redis_logged, kafka_logged, E1, E2;
    unfold stageOf; destruct (failure _);
    try (destruct (Marshal _) as [d [x|]]); rewrite ?map_app; repeat split; reflexivity.
Qed.

End Alike.


(** ** More examples *)

Lemma online_request_is_stored :
  (exists b b',
     net online !! redis.Addr localRedis = Some b /\
     net (redisRun json.Marshal localRedis online) !! redis.Addr localRedis = Some b' /\
     fault b' = None /\
     stored b' !! "request_queue" =
       Some ((json.Marshal (captured online)).1 :: default [] (stored b !! "request_queue")) /\
     (forall k, k <> "request_queue" -> stored b' !! k = stored b !! k) /\
     (forall a, a <> redis.Addr localRedis ->
        net (redisRun json.Marshal localRedis online) !! a = net online !! a))
  /\
  (exists a b b',
     kgo.dial (kgo.seedBrokers localKafka) (net online) = Some (a, b) /\
     net (kafkaRun json.Marshal localKafka online) !! a = Some b' /\
     fault b' = None /\
     stored b' !! "foo" =
       Some (default [] (stored b !! "foo") ++ [(json.Marshal (captured online)).1]) /\
     (forall k, k <> "foo" -> stored b' !! k = stored b !! k) /\
     (forall a', a' <> a -> net (kafkaRun json.Marshal localKafka online) !! a' = net online !! a')).
Proof.
  destruct (enqueued_request_is_stored json.Marshal localRedis localKafka online
              (json.Marshal (captured online)).1 (json.Marshal (captured online)).1
              eq_refl eq_refl) as [[_ R] [_ K]].
  split; [exact R | exact K].
Defined.

Lemma online_success_is_logged :
  logged (redisRun json.Marshal localRedis online) =
    [mkLog LevelInfo "Request added to Redis queue"
       [("method", "POST"); ("uri", "/orders?id=7")]] /\
  logged (kafkaRun json.Marshal localKafka online) =
    [mkLog LevelInfo "Request added to Redis queue"
       [("method", "POST"); ("uri", "/orders?id=7")]].
Proof.
  apply (success_is_logged_with_method_and_uri json.Marshal localRedis localKafka online
           (json.Marshal (captured online)).1 (json.Marshal (captured online)).1);
    reflexivity.
Defined.

Lemma two_requests_in_order :
  (exists b',
     net (serveAll (Redis.handleRequest json.Marshal
                      (Redis.mkServer (Some localRedis) (Some context.Background)))
            [postRequest; getRequest] online)
       !! redis.Addr localRedis = Some b' /\
     default [] (stored b' !! "request_queue") =
       [serialized getRequest; serialized postRequest; "earlier"])
  /\
  (exists b',
     kgo.dial (kgo.seedBrokers localKafka)
       (net (serveAll (Kafka.handleRequest json.Marshal (Kafka.mkServer (Some localKafka)))
               [postRequest; getRequest] online))
       = Some ("127.0.0.1:9092", b') /\
     default [] (stored b' !! "foo") =
       ["earlier"; serialized postRequest; serialized getRequest]).
Proof.
  apply (requests_are_queued_in_order localRedis localKafka [postRequest; getRequest]
           online "127.0.0.1:9092" idleBroker idleBroker);
    [repeat constructor | reflexivity | reflexivity | reflexivity | reflexivity].
Defined.

(** The printer on a POST with two header names. *)
Lemma printer_prints_post :
  stdout (Printer.handler map_to_list online).2 =
    stdout online ++
      ["Method: " +:+ "POST" +:+ Printer.newline;
       "URI: " +:+ "/orders?id=7" +:+ Printer.newline;
       "Headers:" +:+ Printer.newline] ++
      map headerLine (map_to_list (default ∅ (http.Header (request online)))) ++
      ["Body: " +:+ "{}" +:+ Printer.newline] /\
  map headerLine (map_to_list (default ∅ (http.Header (request online)))) ≡ₚ
    map headerLine (map_to_list (default ∅ (http.Header (request online)))) /\
  length (map headerLine (map_to_list (default ∅ (http.Header (request online))))) = 2%nat /\
  calls (Printer.handler map_to_list online).2 = calls online /\
  net (Printer.handler map_to_list online).2 = net online /\
  logged (Printer.handler map_to_list online).2 = logged online.
Proof.
  apply (printer_output map_to_list online). intros m. reflexivity.
Defined.
